(** * video-scene-detector: scene detection and frame-range derivation

    A shallow embedding of [services/sceneDetector.js] and of the parts of
    [services/ffmpeg.js] it calls ([getVideoInfo], [detectScenesFFmpeg]).

    Numbers.  Frame indices that the source keeps integral (results of
    [Math.round], [parseInt], sums of integers) are [Z].  Every other
    JavaScript number (seconds, frame rates, scores, thresholds) is an exact
    rational [Q]: [NaN] and the infinities are outside the model, and
    arithmetic is exact, so a statement about times holds up to the rounding
    error of IEEE doubles.  An absent ([undefined]) value is [None].

    Promises.  An [async] function is a computation in the error monad
    [Result]: [Ok v] is a promise resolved with [v], [Rejected e] a promise
    rejected with [e].  The external processes (ffprobe, the Python
    detector, the ffmpeg filter graph) are read from a [World]. *)

From Stdlib Require Import ZArith QArith Qround Qminmax List Bool Lia String.
From Stdlib Require Import Lqa.
Import ListNotations.
Open Scope Z_scope.

(** ** JavaScript number helpers *)

Module JS.

(** [x < y] on numbers. *)
Definition lt (x y : Q) : bool := negb (Qle_bool y x).

(** [x > y]. *)
Definition gt (x y : Q) : bool := lt y x.

(** [x >= y]. *)
Definition ge (x y : Q) : bool := Qle_bool y x.

(** Truthiness of an optional number: [undefined] and [0] are falsy. *)
Definition truthy (x : option Q) : bool :=
  match x with
  | None => false
  | Some v => negb (Qeq_bool v 0)
  end.

(** [x || d] for an optional number [x]. *)
Definition or (x : option Q) (d : Q) : Q :=
  match x with
  | Some v => if truthy x then v else d
  | None => d
  end.

(** Truthiness and [||] for optional integers. *)
Definition truthyZ (x : option Z) : bool :=
  match x with
  | None => false
  | Some v => negb (v =? 0)
  end.

Definition orZ (x : option Z) (d : Z) : Z :=
  match x with
  | Some v => if truthyZ x then v else d
  | None => d
  end.

(** [Math.round]: the nearest integer, halves towards plus infinity. *)
Definition Math_round (x : Q) : Z := Qfloor (x + (1 # 2)).

(** [Math.max] and [Math.min] on numbers. *)
Definition Math_max (x y : Q) : Q := Qmax x y.
Definition Math_min (x y : Q) : Q := Qmin x y.

(** [Number.isInteger]. *)
Definition Number_isInteger (x : Q) : bool :=
  Qeq_bool x (inject_Z (Qfloor x)).

(** [parseFloat(x.toFixed(3))]: the nearest multiple of one thousandth,
    halves away from zero. *)
Definition toFixed3 (x : Q) : Q :=
  if Qle_bool 0 x
  then Qfloor (x * 1000 + (1 # 2)) # 1000
  else - (Qfloor ((- x) * 1000 + (1 # 2)) # 1000).

End JS.

(** ** Data model *)

Module FrameRange.
Record t : Set := mk
  { start_frame : Z;
    end_frame : Z;
    frame_count : Z }.
End FrameRange.

(** The four-field objects pushed by [detectScenesFFmpeg]. *)
Module RawScene.
Record t : Set := mk
  { start_frame : Z;
    end_frame : Z;
    start_time : Q;
    end_time : Q }.
End RawScene.

(** The scene objects returned to callers. *)
Module Scene.
Record t : Set := mk
  { scene_number : Z;
    start_frame : Z;
    end_frame : Z;
    start_time : Q;
    end_time : Q;
    duration : Q }.
End Scene.

Module VideoInfo.
Record t : Set := mk
  { duration : Q;
    fps : Q;
    width : Z;
    height : Z;
    total_frames : Z }.
End VideoInfo.

(** The entries [validateFrameRange] pushes on [errors], one constructor per
    message. *)
Inductive RangeError : Set :=
| StartNotPositiveInteger   (* 'Start frame must be a positive integer' *)
| EndNotPositiveInteger     (* 'End frame must be a positive integer' *)
| StartAfterEnd             (* 'Start frame must be less than or equal to end frame' *)
| EndExceedsTotal (totalFrames : Q)
                            (* `End frame cannot exceed total frames (${totalFrames})` *)
| TooManyFrames.            (* 'Cannot extract more than 1000 frames at once' *)

Module Validation.
Record t : Type := mk
  { valid : bool;
    errors : list RangeError;
    frameCount : Q }.
End Validation.

(** ** [sceneDetector.js]: pure range functions *)

Definition DEFAULT_MIN_SCENE_LENGTH : Q := 1%Q.
Definition DEFAULT_THRESHOLD : Q := 20%Q.

(** [errors.push(e)] guarded by [if (c)]. *)
Definition push_if (c : bool) (e : RangeError) (errors : list RangeError) :
  list RangeError :=
  if c then errors ++ [e] else errors.

Definition validateFrameRange (startFrame endFrame totalFrames : Q) :
  Validation.t :=
  let errors := [] in
  let errors :=
    push_if (negb (JS.Number_isInteger startFrame) || JS.lt startFrame 1)
            StartNotPositiveInteger errors in
  let errors :=
    push_if (negb (JS.Number_isInteger endFrame) || JS.lt endFrame 1)
            EndNotPositiveInteger errors in
  let errors := push_if (JS.gt startFrame endFrame) StartAfterEnd errors in
  let errors :=
    push_if (JS.gt endFrame totalFrames) (EndExceedsTotal totalFrames) errors in
  let frameCount := (endFrame - startFrame + 1)%Q in
  let errors := push_if (JS.gt frameCount 1000) TooManyFrames errors in
  {| Validation.valid := (List.length errors =? 0)%nat;
     Validation.errors := errors;
     Validation.frameCount := frameCount |}.

Definition calculateFrameRange
  (startFrame endFrame offset : Z) (length : option Z) (totalFrames : Z) :
  FrameRange.t :=
  (* Apply offset *)
  let newStart := startFrame + offset in
  let newEnd := endFrame + offset in
  (* Apply length constraint if specified *)
  let newEnd :=
    match length with
    | Some l => if JS.truthyZ length && (l >? 0) then newStart + l - 1 else newEnd
    | None => newEnd
    end in
  (* Clamp to valid range *)
  let newStart := Z.max 1 newStart in
  let newEnd := Z.min totalFrames newEnd in
  (* Ensure start <= end *)
  let newEnd := if newStart >? newEnd then newStart else newEnd in
  {| FrameRange.start_frame := newStart;
     FrameRange.end_frame := newEnd;
     FrameRange.frame_count := newEnd - newStart + 1 |}.

(** The range computation as the specification words it: offset first, then
    the length (a fixed window when provided and positive, the scene's own
    span otherwise), then the two clamps, then the collapse. *)
Definition computeRange_spec
  (start_frame end_frame offset : Z) (length : option Z) (totalFrames : Z) :
  FrameRange.t :=
  let newStart := start_frame + offset in
  let newEnd :=
    match length with
    | Some l => if 0 <? l then newStart + l - 1
                else newStart + (end_frame - start_frame)
    | None => newStart + (end_frame - start_frame)
    end in
  let newStart := Z.max 1 newStart in
  let newEnd := Z.min totalFrames newEnd in
  if newEnd <? newStart
  then FrameRange.mk newStart newStart 1
  else FrameRange.mk newStart newEnd (newEnd - newStart + 1).

(** ** Promises and the outside world *)

Inductive Error : Set :=
| ProbeFailed            (* 'Failed to probe video: ...' *)
| NoVideoStream          (* 'No video stream found' *)
| SceneDetectionFailed.  (* 'Scene detection failed: ...' *)

Inductive Result (A : Type) : Type :=
| Ok (value : A)
| Rejected (reason : Error).

Arguments Ok {A} value.
Arguments Rejected {A} reason.

(** [await]. *)
Definition bind {A B : Type} (p : Result A) (k : A -> Result B) : Result B :=
  match p with
  | Ok v => k v
  | Rejected e => Rejected e
  end.

Notation "'await' x <- p ;; k" := (bind p (fun x => k))
  (at level 61, x name, p at next level, right associativity).

(** What ffprobe reports for a file: the values [getVideoInfo] reads, after
    [parseFloat] and [eval] ([None] where they give [NaN] or the field is
    missing). *)
Module Metadata.
Record t : Set := mk
  { format_duration : option Q;
    r_frame_rate : option Q;
    width : option Z;
    height : option Z }.
End Metadata.

Inductive Ffprobe : Set :=
| FfprobeError                     (* the callback receives [err] *)
| FfprobeNoVideo                   (* no stream with [codec_type === 'video'] *)
| FfprobeVideo (m : Metadata.t).

(** One frame analysed by the ffmpeg filter graph: its presentation time (a
    non-negative decimal, as [showinfo] prints it) and its scene score
    ([scene], the content difference to the previous frame). *)
Module Frame.
Record t : Set := mk
  { pts_time : Q;
    scene : Q }.
End Frame.

(** What the [try] block makes of the Python detector's stdout:
    [JSON.parse(output)] or the field access throws, or there is a value
    whose [error] field is truthy ([Some]) or not and whose [scenes] field is
    an array ([Some]) or missing. *)
Module PyResult.
Record t : Set := mk
  { error : option string;
    scenes : option (list Scene.t) }.
End PyResult.

Inductive Stdout : Set :=
| Unparseable
| Parsed (result : PyResult.t).

(** One run of the Python process: the ['error'] event (it could not be
    started), or the ['close'] event with the exit code and what was written
    to stdout until then. *)
Inductive PythonRun : Set :=
| SpawnError
| Close (code : Z) (output : Stdout).

Module World.
Record t : Type := mk
  { ffprobe : Ffprobe;
    (* python3 scene_detector.py --threshold t --min-scene-length m --fps f *)
    python : Q -> Q -> Q -> PythonRun;
    (* the frames ffmpeg decodes, [None] when it emits ['error'] *)
    ffmpeg : option (list Frame.t) }.
End World.

(** ** [ffmpeg.js] *)

Definition getVideoInfo (w : World.t) : Result VideoInfo.t :=
  match World.ffprobe w with
  | FfprobeError => Rejected ProbeFailed
  | FfprobeNoVideo => Rejected NoVideoStream
  | FfprobeVideo m =>
      let duration := JS.or (Metadata.format_duration m) 0 in
      let fps := JS.or (Metadata.r_frame_rate m) 30 in
      let width := JS.orZ (Metadata.width m) 0 in
      let height := JS.orZ (Metadata.height m) 0 in
      let total_frames := JS.Math_round (duration * fps) in
      Ok {| VideoInfo.duration := duration;
            VideoInfo.fps := fps;
            VideoInfo.width := width;
            VideoInfo.height := height;
            VideoInfo.total_frames := total_frames |}
  end.

(** The filter graph [select='gt(scene,threshold)',showinfo]: [select] keeps
    the frames whose scene score is greater than the threshold, [showinfo]
    prints one line per kept frame, and the handler's regular expression
    reads [pts_time] from it. *)
Definition select_gt_scene (threshold : Q) (f : Frame.t) : bool :=
  JS.gt (Frame.scene f) threshold.

Definition showinfo (threshold : Q) (frames : list Frame.t) : list Q :=
  map Frame.pts_time (filter (select_gt_scene threshold) frames).

(** The variables the handlers of [detectScenesFFmpeg] close over. *)
Module Detector.
Record t : Set := mk
  { scenes : list RawScene.t;
    lastSceneFrame : Z }.

Definition init : t := {| scenes := []; lastSceneFrame := 1 |}.
End Detector.

(** The ['stderr'] handler on a line that matches, [ptsTime] parsed. *)
Definition onStderr (minSceneLength : Z) (fps : Q)
  (st : Detector.t) (ptsTime : Q) : Detector.t :=
  let frameNum := JS.Math_round (ptsTime * fps) in
  let lastSceneFrame := Detector.lastSceneFrame st in
  (* Only add scene if it meets minimum length *)
  if frameNum - lastSceneFrame >=? minSceneLength then
    {| Detector.scenes :=
         Detector.scenes st ++
         [ {| RawScene.start_frame := lastSceneFrame;
              RawScene.end_frame := frameNum;
              RawScene.start_time := (inject_Z (lastSceneFrame - 1) / fps)%Q;
              RawScene.end_time := ptsTime |} ];
       Detector.lastSceneFrame := frameNum + 1 |}
  else st.

(** The ['end'] handler once [getVideoInfo] has resolved with [info]. *)
Definition onEnd (minSceneLength : Z) (fps : Q) (info : VideoInfo.t)
  (st : Detector.t) : list RawScene.t :=
  let lastSceneFrame := Detector.lastSceneFrame st in
  let scenes := Detector.scenes st in
  (* Add final scene to end of video *)
  if JS.ge (inject_Z (VideoInfo.total_frames info - lastSceneFrame))
           (inject_Z minSceneLength / 2)
     || (List.length scenes =? 0)%nat
  then
    scenes ++
    [ {| RawScene.start_frame := lastSceneFrame;
         RawScene.end_frame := VideoInfo.total_frames info;
         RawScene.start_time := (inject_Z (lastSceneFrame - 1) / fps)%Q;
         RawScene.end_time := VideoInfo.duration info |} ]
  else scenes.

Definition detectScenesFFmpeg (w : World.t)
  (threshold : Q) (minSceneLength : Z) (fps : Q) : Result (list RawScene.t) :=
  match World.ffmpeg w with
  | None => Rejected SceneDetectionFailed
  | Some frames =>
      let st :=
        fold_left (onStderr minSceneLength fps) (showinfo threshold frames)
                  Detector.init in
      await info <- getVideoInfo w ;;
      Ok (onEnd minSceneLength fps info st)
  end.

(** ** [sceneDetector.js]: detection *)

(** [scenes.map((scene, index) => f(scene, index))]. *)
Fixpoint map_index {A B : Type} (f : A -> Z -> B) (index : Z) (l : list A) :
  list B :=
  match l with
  | [] => []
  | x :: r => f x index :: map_index f (index + 1) r
  end.

(** The callback of [scenes.map] in [fallbackDetectScenes]. *)
Definition cleanScene (videoInfo : VideoInfo.t)
  (scene : RawScene.t) (index : Z) : Scene.t :=
  {| Scene.scene_number := index + 1;
     Scene.start_frame :=
       Z.max 1 (JS.Math_round (inject_Z (RawScene.start_frame scene)));
     Scene.end_frame :=
       Z.min (VideoInfo.total_frames videoInfo)
             (JS.Math_round (inject_Z (RawScene.end_frame scene)));
     Scene.start_time :=
       JS.Math_max 0 (JS.toFixed3 (RawScene.start_time scene));
     Scene.end_time :=
       JS.Math_min (VideoInfo.duration videoInfo)
                   (JS.toFixed3 (RawScene.end_time scene));
     Scene.duration :=
       JS.toFixed3 (RawScene.end_time scene - RawScene.start_time scene) |}.

Definition FFMPEG_THRESHOLD : Q := 3 # 10.

Definition fallbackDetectScenes (w : World.t) (minSceneLengthSec fps : Q) :
  Result (list Scene.t) :=
  let minSceneLengthFrames := JS.Math_round (minSceneLengthSec * fps) in
  await scenes <-
    detectScenesFFmpeg w FFMPEG_THRESHOLD minSceneLengthFrames fps ;;
  (* Get video info for validation *)
  await videoInfo <- getVideoInfo w ;;
  (* Validate and clean up scene data *)
  Ok (map_index (cleanScene videoInfo) 0 scenes).

Module Options.
Record t : Set := mk
  { fps : option Q;
    minSceneLength : option Q;
    threshold : option Q }.

(** [options = {}]. *)
Definition empty : t :=
  {| fps := None; minSceneLength := None; threshold := None |}.
End Options.

(** Lines 20-28 of [detectScenes]: the minimum scene length in seconds. *)
Definition normalizeMinSceneLength (minSceneLength : option Q) (fps : Q) : Q :=
  let minSceneLengthSec := JS.or minSceneLength DEFAULT_MIN_SCENE_LENGTH in
  (* If value seems to be in frames (> 300), convert to seconds *)
  let minSceneLengthSec :=
    if JS.gt minSceneLengthSec 300 then (minSceneLengthSec / fps)%Q
    else minSceneLengthSec in
  (* Clamp to reasonable range (0.5 - 60 seconds) *)
  JS.Math_max (1 # 2) (JS.Math_min 60 minSceneLengthSec).

Definition detectScenes (w : World.t) (options : Options.t) :
  Result (list Scene.t) :=
  await videoInfo <- getVideoInfo w ;;
  let fps := JS.or (Options.fps options) (VideoInfo.fps videoInfo) in
  let minSceneLengthSec :=
    normalizeMinSceneLength (Options.minSceneLength options) fps in
  let threshold := JS.or (Options.threshold options) DEFAULT_THRESHOLD in
  match World.python w threshold minSceneLengthSec fps with
  | SpawnError =>
      (* 'error': failed to start the Python process *)
      fallbackDetectScenes w minSceneLengthSec fps
  | Close code output =>
      if negb (code =? 0) then
        fallbackDetectScenes w minSceneLengthSec fps
      else
        match output with
        | Unparseable => fallbackDetectScenes w minSceneLengthSec fps
        | Parsed result =>
            match PyResult.error result with
            | Some _ => fallbackDetectScenes w minSceneLengthSec fps
            | None =>
                match PyResult.scenes result with
                | Some scenes => Ok scenes
                | None => Ok []
                end
            end
        end
  end.

(** ** Specification-side vocabulary *)

(** "A positive integer", for a JavaScript number. *)
Definition positive_integer (x : Q) : Prop :=
  (exists n : Z, x == inject_Z n) /\ (0 < x)%Q.

(** The four rules of the range validator. *)
Definition range_rules (startFrame endFrame totalFrames : Q) : Prop :=
  positive_integer startFrame /\ positive_integer endFrame
  /\ (startFrame <= endFrame)%Q
  /\ (endFrame <= totalFrames)%Q
  /\ (endFrame - startFrame + 1 <= 1000)%Q.

(** The minimum scene length as the specification words it, for a supplied
    value: a value above 300 is a frame count and is divided by fps, and the
    seconds are clamped to [0.5, 60]. *)
Definition clamp (lo hi x : Q) : Q := Qmax lo (Qmin hi x).

Definition normalize_spec (supplied fps : Q) : Q :=
  clamp (1 # 2) 60
        (if JS.gt supplied 300 then (supplied / fps)%Q else supplied).

(** The four ways the primary detector fails. *)
Inductive PrimaryFailure : PythonRun -> Prop :=
| NonZeroExit (code : Z) (output : Stdout) :
    code <> 0 -> PrimaryFailure (Close code output)
| UnparseableOutput :
    PrimaryFailure (Close 0 Unparseable)
| ErrorField (msg : string) (scenes : option (list Scene.t)) :
    PrimaryFailure
      (Close 0 (Parsed {| PyResult.error := Some msg;
                          PyResult.scenes := scenes |}))
| SpawnFailure :
    PrimaryFailure SpawnError.

(** The values [detectScenes] derives from its options before it starts the
    primary detector. *)
Definition effective_fps (options : Options.t) (info : VideoInfo.t) : Q :=
  JS.or (Options.fps options) (VideoInfo.fps info).

Definition effective_minSceneLength (options : Options.t) (info : VideoInfo.t) :
  Q :=
  normalizeMinSceneLength (Options.minSceneLength options)
                          (effective_fps options info).

Definition effective_threshold (options : Options.t) : Q :=
  JS.or (Options.threshold options) DEFAULT_THRESHOLD.

Definition primary_run (w : World.t) (options : Options.t)
  (info : VideoInfo.t) : PythonRun :=
  World.python w (effective_threshold options)
               (effective_minSceneLength options info)
               (effective_fps options info).

(** Frame intervals.  [tiles a l b] says that the intervals of [l], in
    order, are non-empty and partition the frames from [a] up to [b - 1]:
    the first starts at [a], each next one starts one frame after the
    previous one ends, and the last ends at [b - 1]. *)
Fixpoint tiles (a : Z) (l : list (Z * Z)) (b : Z) : Prop :=
  match l with
  | [] => a = b
  | (s, e) :: r => s = a /\ s <= e /\ tiles (e + 1) r b
  end.

Definition scene_frames (s : Scene.t) : Z * Z :=
  (Scene.start_frame s, Scene.end_frame s).

Definition raw_frames (s : RawScene.t) : Z * Z :=
  (RawScene.start_frame s, RawScene.end_frame s).

(** Gapless cover of [1 .. total_frames] by a non-empty scene list. *)
Definition covers_video (scenes : list Scene.t) (total_frames : Z) : Prop :=
  scenes <> [] /\ tiles 1 (map scene_frames scenes) (total_frames + 1).

(** A whole number of milliseconds. *)
Definition whole_ms (x : Q) : Prop := exists n : Z, x == n # 1000.

(** What the post-processing step establishes for a scene. *)
Definition post_processed (info : VideoInfo.t) (s : Scene.t) : Prop :=
  1 <= Scene.start_frame s
  /\ Scene.end_frame s <= VideoInfo.total_frames info
  /\ (0 <= Scene.start_time s)%Q
  /\ (Scene.end_time s <= VideoInfo.duration info)%Q
  /\ whole_ms (Scene.start_time s)
  /\ (whole_ms (Scene.end_time s)
      \/ Scene.end_time s == VideoInfo.duration info).

(** The frame number the ['stderr'] handler gives a presentation time. *)
Definition frameNum (fps : Q) (f : Frame.t) : Z :=
  JS.Math_round (Frame.pts_time f * fps).

(** Boundary placement as the specification words it, over the whole
    content-difference signal and for a given threshold: at a frame whose
    signal exceeds the threshold and that lies at least [minSceneLength]
    frames after the start of the open scene, the open scene is closed at
    that frame and the next one opens at the frame after it. *)
Definition close_scene (fps : Q) (st : Detector.t) (f : Frame.t) :
  Detector.t :=
  {| Detector.scenes :=
       Detector.scenes st ++
       [ {| RawScene.start_frame := Detector.lastSceneFrame st;
            RawScene.end_frame := frameNum fps f;
            RawScene.start_time :=
              (inject_Z (Detector.lastSceneFrame st - 1) / fps)%Q;
            RawScene.end_time := Frame.pts_time f |} ];
     Detector.lastSceneFrame := frameNum fps f + 1 |}.

Definition place_boundary (threshold : Q) (minSceneLength : Z) (fps : Q)
  (st : Detector.t) (f : Frame.t) : Detector.t :=
  if JS.gt (Frame.scene f) threshold
     && (minSceneLength <=? frameNum fps f - Detector.lastSceneFrame st)
  then close_scene fps st f
  else st.

(** The handlers keep the pushed scenes a tiling of the frames before the
    open scene's start. *)
Definition detector_inv (total : Z) (st : Detector.t) : Prop :=
  tiles 1 (map raw_frames (Detector.scenes st)) (Detector.lastSceneFrame st)
  /\ Detector.lastSceneFrame st <= total + 1.

(** ** Sample videos *)

(** A video of [duration] seconds at 30 frames per second whose primary
    detector cannot be started and whose analysed frames are [frames]. *)
Definition sample_world (duration : Q) (frames : list Frame.t) : World.t :=
  {| World.ffprobe :=
       FfprobeVideo {| Metadata.format_duration := Some duration;
                       Metadata.r_frame_rate := Some 30%Q;
                       Metadata.width := Some 1280;
                       Metadata.height := Some 720 |};
     World.python := fun _ _ _ => SpawnError;
     World.ffmpeg := Some frames |}.

(** 100 frames, one cut at 3.0 s (frame 90). *)
Definition late_cut_world : World.t :=
  sample_world (10 # 3) [ Frame.mk 3 (9 # 10) ].

(** 300 frames, one frame at 2.0 s (frame 60) with scene score 0.5. *)
Definition mild_cut_world : World.t :=
  sample_world 10 [ Frame.mk 2 (1 # 2) ].

(** 120 frames, cuts at 1.333333 s (frame 40) and 3.066667 s (frame 92). *)
Definition two_cut_world : World.t :=
  sample_world 4 [ Frame.mk (1333333 # 1000000) (9 # 10);
                   Frame.mk (3066667 # 1000000) (9 # 10) ].

(** 100 frames; the primary detector succeeds and prints one scene that
    starts at frame 0 and ends after the video. *)
Definition unclamped_scene : Scene.t :=
  {| Scene.scene_number := 1;
     Scene.start_frame := 0;
     Scene.end_frame := 500;
     Scene.start_time := (- (1 # 2))%Q;
     Scene.end_time := 20%Q;
     Scene.duration := (41 # 2)%Q |}.

Definition primary_world : World.t :=
  {| World.ffprobe :=
       FfprobeVideo {| Metadata.format_duration := Some (10 # 3);
                       Metadata.r_frame_rate := Some 30%Q;
                       Metadata.width := Some 1280;
                       Metadata.height := Some 720 |};
     World.python := fun _ _ _ =>
       Close 0 (Parsed {| PyResult.error := None;
                          PyResult.scenes := Some [unclamped_scene] |});
     World.ffmpeg := Some [] |}.

(** ** [ffmpeg.js]: frame-based detection *)




(** ** Routes *)

(** A field of a request body or query. *)
Inductive Field (A : Type) : Type :=
| Undefined
| Null
| Given (value : A).

Arguments Undefined {A}.
Arguments Null {A}.
Arguments Given {A} value.

(** [parseInt(x)] and [parseFloat(x)] of a field whose given value parses to
    [value] ([None] for [NaN]); [undefined] and [null] parse to [NaN]. *)
Definition parse {A : Type} (x : Field (option A)) : option A :=
  match x with
  | Given value => value
  | Undefined | Null => None
  end.

Definition is_undefined {A : Type} (x : Field A) : bool :=
  match x with
  | Undefined => true
  | _ => false
  end.

(** What [fileManager] answers for the request's path. *)
Module Files.
Record t : Set := mk
  { isPathSafe : bool;
    fileExists : bool }.
End Files.

(** The response of a route, or the call it ends with. *)
Inductive Http (A : Type) : Type :=
| Status400 (error : string)
| Status400Range (errors : list RangeError)  (* validation.errors.join(', ') *)
| Status403
| Status404
| Status500 (reason : Error)
| Proceed (call : A).

Arguments Status400 {A} error.
Arguments Status400Range {A} errors.
Arguments Status403 {A}.
Arguments Status404 {A}.
Arguments Status500 {A} reason.
Arguments Proceed {A} call.

(** [POST /extract] up to its call of [ffmpeg.extractSegment]. *)
Module ExtractBody.
Record t : Set := mk
  { filepath : bool;                     (* truthy *)
    start_frame : Field (option Z);      (* values as [parseInt] reads them *)
    end_frame : Field (option Z);
    fps : option Q;
    start_offset : Field (option Z);
    extract_frames : Field (option Z) }.
End ExtractBody.

(** The arguments of [extractSegment] with the frames they come from. *)
Module Segment.
Record t : Set := mk
  { startFrame : Z;
    endFrame : Z;
    startTime : Q;
    duration : Q }.
End Segment.

Definition extractRoute (w : World.t) (files : Files.t) (body : ExtractBody.t) :
  Http Segment.t :=
  (* Validate required fields *)
  if negb (ExtractBody.filepath body) then
    Status400 "filepath is required"
  else if is_undefined (ExtractBody.start_frame body)
          || is_undefined (ExtractBody.end_frame body) then
    Status400 "start_frame and end_frame are required"
  else if negb (Files.isPathSafe files) then Status403
  else if negb (Files.fileExists files) then Status404
  else
    match getVideoInfo w with
    | Rejected e => Status500 e
    | Ok videoInfo =>
        let videoFps := JS.or (ExtractBody.fps body) (VideoInfo.fps videoInfo) in
        (* Parse frame numbers *)
        match parse (ExtractBody.start_frame body),
              parse (ExtractBody.end_frame body) with
        | Some start_frame, Some end_frame =>
            (* Apply offset to start frame if provided *)
            let startFrame :=
              match parse (ExtractBody.start_offset body) with
              | Some offset => start_frame + offset
              | None => start_frame
              end in
            (* Apply extract_frames limit if provided, otherwise use original
               end_frame *)
            let endFrame :=
              match ExtractBody.extract_frames body with
              | Undefined | Null =>
                  let originalSceneLength := end_frame - start_frame in
                  startFrame + originalSceneLength
              | Given extractLength =>
                  match extractLength with
                  | Some l => if l >? 0 then startFrame + l - 1 else end_frame
                  | None => end_frame
                  end
              end in
            (* Validate frame range *)
            let validation :=
              validateFrameRange (inject_Z startFrame) (inject_Z endFrame)
                (inject_Z (VideoInfo.total_frames videoInfo)) in
            if negb (Validation.valid validation) then
              Status400Range (Validation.errors validation)
            else
              (* Calculate time range *)
              Proceed
                {| Segment.startFrame := startFrame;
                   Segment.endFrame := endFrame;
                   Segment.startTime :=
                     (inject_Z (startFrame - 1) / videoFps)%Q;
                   Segment.duration :=
                     (inject_Z (endFrame - startFrame + 1) / videoFps)%Q |}
        | _, _ => Status400 "Invalid frame numbers"
        end
    end.

(** [POST /detect-scenes] up to its call of [sceneDetector.detectScenes]:
    the options it passes, and then the whole route. *)
Module ScenesBody.
Record t : Set := mk
  { filepath : bool;                          (* truthy *)
    min_scene_length : Field (option Q);      (* values as [parseFloat] reads them *)
    threshold : Field (option Q) }.
End ScenesBody.

(** [x < lo || x > hi], after the [isNaN] test. *)
Definition out_of_range (x : option Q) (lo hi : Q) : bool :=
  match x with
  | None => true
  | Some v => JS.lt v lo || JS.gt v hi
  end.

Definition scenesOptions (w : World.t) (files : Files.t) (body : ScenesBody.t) :
  Http Options.t :=
  if negb (ScenesBody.filepath body) then
    Status400 "filepath is required"
  else if negb (Files.isPathSafe files) then Status403
  else if negb (Files.fileExists files) then Status404
  else
    (* Get video info for fps *)
    match getVideoInfo w with
    | Rejected e => Status500 e
    | Ok videoInfo =>
        let min_scene_length := ScenesBody.min_scene_length body in
        if negb (is_undefined min_scene_length)
           && out_of_range (parse min_scene_length) (1 # 10) 300
        then Status400 "min_scene_length must be between 0.1 and 300 seconds"
        else
          let threshold := ScenesBody.threshold body in
          if negb (is_undefined threshold)
             && out_of_range (parse threshold) 1 100
          then Status400 "threshold must be between 1 and 100"
          else
            Proceed
              {| Options.minSceneLength := parse min_scene_length;
                 Options.threshold := parse threshold;
                 Options.fps := Some (VideoInfo.fps videoInfo) |}
    end.


(** [POST /upload]: the target frame rate,
    [parseInt(req.body.target_fps) || 24] checked against [validFps]; [None]
    is the 400 response.  The options of the upload's [detectScenes] call are
    [{ fps: targetFps }]. *)
Definition validFps : list Z := [16; 24; 25; 30].

Definition uploadTargetFps (target_fps : option Z) : option Z :=
  let targetFps := JS.orZ target_fps 24 in
  if existsb (Z.eqb targetFps) validFps then Some targetFps else None.

Definition uploadOptions (targetFps : Z) : Options.t :=
  {| Options.fps := Some (inject_Z targetFps);
     Options.minSceneLength := None;
     Options.threshold := None |}.

(** [GET /preview] and [POST /preview]: the timestamp passed to
    [generateThumbnail]. *)
Definition safeTimestamp (timeValue duration : Q) : Q :=
  JS.Math_max 0 (JS.Math_min timeValue (duration - (1 # 1000))).

(** ** Further vocabulary *)

Definition scene_span (r : RawScene.t) : Z :=
  RawScene.end_frame r - RawScene.start_frame r.

(** The integer inputs [calculateFrameRange] is documented for, as the
    numbers [validateFrameRange] takes. *)
Definition validateFrames (startFrame endFrame totalFrames : Z) : Validation.t :=
  validateFrameRange (inject_Z startFrame) (inject_Z endFrame)
                     (inject_Z totalFrames).

(** The frames [POST /extract] validates: the start after the offset, and
    the end after the [extract_frames] branch, for parsed [start_frame] and
    [end_frame]. *)
Definition extractStart (body : ExtractBody.t) (start_frame : Z) : Z :=
  match parse (ExtractBody.start_offset body) with
  | Some offset => start_frame + offset
  | None => start_frame
  end.

Definition extractEnd (body : ExtractBody.t) (start_frame end_frame : Z) : Z :=
  match ExtractBody.extract_frames body with
  | Undefined | Null => extractStart body start_frame + (end_frame - start_frame)
  | Given (Some l) =>
      if l >? 0 then extractStart body start_frame + l - 1 else end_frame
  | Given None => end_frame
  end.

(** The offset as [calculateFrameRange] would be given it. *)
Definition extractOffset (body : ExtractBody.t) : Z :=
  match parse (ExtractBody.start_offset body) with
  | Some offset => offset
  | None => 0
  end.

Definition all_files : Files.t :=
  {| Files.isPathSafe := true; Files.fileExists := true |}.

(** An extraction request for the frames 100..240 moved back by 50. *)
Definition sample_extract : ExtractBody.t :=
  {| ExtractBody.filepath := true;
     ExtractBody.start_frame := Given (Some 100);
     ExtractBody.end_frame := Given (Some 240);
     ExtractBody.fps := None;
     ExtractBody.start_offset := Given (Some (-50));
     ExtractBody.extract_frames := Undefined |}.

(** A re-detection request with a minimum length of 2.5 seconds. *)
Definition sample_redetect : ScenesBody.t :=
  {| ScenesBody.filepath := true;
     ScenesBody.min_scene_length := Given (Some (5 # 2));
     ScenesBody.threshold := Undefined |}.

(** * Properties *)

(** ** Number helpers *)

Lemma lt_spec (x y : Q) : JS.lt x y = true <-> (x < y)%Q.
Proof.
  unfold JS.lt. rewrite negb_true_iff.
  destruct (Qle_bool y x) eqn:E.
  - apply Qle_bool_iff in E. split; [discriminate|].
    intros H. exfalso. exact (Qlt_not_le _ _ H E).
  - split; [intros _|reflexivity].
    apply Qnot_le_lt. intros H. apply Qle_bool_iff in H. congruence.
Qed.

Lemma gt_spec (x y : Q) : JS.gt x y = true <-> (y < x)%Q.
Proof. unfold JS.gt. apply lt_spec. Qed.

Lemma gt_false (x y : Q) : JS.gt x y = false <-> (x <= y)%Q.
Proof.
  unfold JS.gt, JS.lt. rewrite negb_false_iff. apply Qle_bool_iff.
Qed.

Lemma lt_false (x y : Q) : JS.lt x y = false <-> (y <= x)%Q.
Proof. unfold JS.lt. rewrite negb_false_iff. apply Qle_bool_iff. Qed.

Lemma ge_spec (x y : Q) : JS.ge x y = true <-> (y <= x)%Q.
Proof. unfold JS.ge. apply Qle_bool_iff. Qed.

Lemma Number_isInteger_spec (x : Q) :
  JS.Number_isInteger x = true <-> exists n : Z, x == inject_Z n.
Proof.
  unfold JS.Number_isInteger. rewrite Qeq_bool_iff. split.
  - intros H. exists (Qfloor x). exact H.
  - intros [n Hn]. rewrite Hn at 2. rewrite Qfloor_Z. exact Hn.
Qed.

Lemma Math_round_Z (n : Z) : JS.Math_round (inject_Z n) = n.
Proof.
  unfold JS.Math_round.
  assert (Hle : (n <= Qfloor (inject_Z n + (1 # 2)))%Z).
  { rewrite <- (Qfloor_Z n) at 1. apply Qfloor_resp_le.
    rewrite <- (Qplus_0_r (inject_Z n)) at 1.
    apply Qplus_le_r. discriminate. }
  assert (Hlt : (Qfloor (inject_Z n + (1 # 2)) < n + 1)%Z).
  { rewrite Zlt_Qlt. eapply Qle_lt_trans; [apply Qfloor_le|].
    rewrite inject_Z_plus. apply Qplus_lt_r. reflexivity. }
  lia.
Qed.

(** ** [calculateFrameRange] *)

Lemma calculateFrameRange_start_ge_1 s e off len tf :
  1 <= FrameRange.start_frame (calculateFrameRange s e off len tf).
Proof. unfold calculateFrameRange. simpl. lia. Qed.

Lemma calculateFrameRange_start_le_end s e off len tf :
  FrameRange.start_frame (calculateFrameRange s e off len tf)
  <= FrameRange.end_frame (calculateFrameRange s e off len tf).
Proof.
  unfold calculateFrameRange. simpl.
  destruct (_ >? _) eqn:E; lia.
Qed.

Lemma calculateFrameRange_frame_count s e off len tf :
  FrameRange.frame_count (calculateFrameRange s e off len tf)
  = FrameRange.end_frame (calculateFrameRange s e off len tf)
    - FrameRange.start_frame (calculateFrameRange s e off len tf) + 1.
Proof. reflexivity. Qed.

(** The end of the returned range stays within the video exactly when the
    shifted start does. *)
Lemma calculateFrameRange_end_le_total_iff s e off len tf :
  1 <= tf ->
  FrameRange.end_frame (calculateFrameRange s e off len tf) <= tf
  <-> s + off <= tf.
Proof.
  intros Htf. unfold calculateFrameRange. simpl.
  destruct (_ >? _) eqn:E; lia.
Qed.

(** C1 (defect): after the two clamps the collapse step assigns
    [newEnd = newStart] although [newStart] was never bounded by
    [totalFrames].  For the scene 1..10 of a 500-frame video and offset 1000
    the returned range is 1001..1001, whose end exceeds [totalFrames]. *)
Theorem calculateFrameRange_end_exceeds_total :
  1 <= 1 /\ 1 <= 10 /\ 10 <= 500 /\
  calculateFrameRange 1 10 1000 None 500 = FrameRange.mk 1001 1001 1 /\
  ~ FrameRange.end_frame (calculateFrameRange 1 10 1000 None 500) <= 500.
Proof. vm_compute. repeat split; try discriminate. intros H. apply H. reflexivity. Qed.

(** C2: [calculateFrameRange] computes what the specification's ordered
    steps (offset, length, clamps, collapse) compute, and gives the two
    documented results for the scene 100..340. *)
Theorem calculateFrameRange_refines_spec :
  (forall s e off len tf,
      calculateFrameRange s e off len tf = computeRange_spec s e off len tf)
  /\ (forall tf, 290 <= tf ->
        calculateFrameRange 100 340 (-50) None tf = FrameRange.mk 50 290 241)
  /\ (forall tf, 149 <= tf ->
        calculateFrameRange 100 340 0 (Some 50) tf = FrameRange.mk 100 149 50).
Proof.
  split; [|split].
  - intros s e off len tf.
    cbv [calculateFrameRange computeRange_spec JS.truthyZ andb negb].
    replace (s + off + (e - s)) with (e + off) by lia.
    destruct len as [l|];
      [ destruct (Z.eqb_spec l 0); destruct (Z.gtb_spec l 0);
        destruct (Z.ltb_spec 0 l); try lia | ];
      repeat match goal with
        | |- context [?a >? ?b] => destruct (Z.gtb_spec a b)
        | |- context [?a <? ?b] => destruct (Z.ltb_spec a b)
        end;
      try lia; f_equal; lia.
  - intros tf Htf. unfold calculateFrameRange. simpl.
    rewrite Z.min_r by lia. reflexivity.
  - intros tf Htf. unfold calculateFrameRange. simpl.
    rewrite Z.min_r by lia. reflexivity.
Qed.

Lemma calculateFrameRange_refines_spec_witness :
  calculateFrameRange 100 340 (-50) None 1000 = FrameRange.mk 50 290 241
  /\ calculateFrameRange 100 340 0 (Some 50) 1000 = FrameRange.mk 100 149 50.
Proof.
  destruct calculateFrameRange_refines_spec as [_ [H1 H2]].
  split; [apply H1; lia | apply H2; lia].
Defined.

(** ** [validateFrameRange] *)

Lemma gt_true_not_le (x y : Q) : JS.gt x y = true <-> ~ (x <= y)%Q.
Proof.
  rewrite gt_spec. split.
  - intros H H'. exact (Qlt_not_le _ _ H H').
  - apply Qnot_le_lt.
Qed.

Lemma positive_integer_check (x : Q) :
  negb (JS.Number_isInteger x) || JS.lt x 1 = false <-> positive_integer x.
Proof.
  rewrite orb_false_iff, negb_false_iff, Number_isInteger_spec, lt_false.
  unfold positive_integer. split.
  - intros [Hn H1]. split; [exact Hn|].
    eapply Qlt_le_trans; [|exact H1]. reflexivity.
  - intros [[n Hn] H0]. split; [exists n; exact Hn|].
    rewrite Hn in *. change 1%Q with (inject_Z 1). rewrite <- Zle_Qle.
    change 0%Q with (inject_Z 0) in H0. rewrite <- Zlt_Qlt in H0. lia.
Qed.

Lemma positive_integer_check_true (x : Q) :
  negb (JS.Number_isInteger x) || JS.lt x 1 = true <-> ~ positive_integer x.
Proof.
  rewrite <- positive_integer_check.
  destruct (negb (JS.Number_isInteger x) || JS.lt x 1); intuition congruence.
Qed.

(** C7: every check of [validateFrameRange] is evaluated; [valid] holds
    exactly when start and end are positive integers, start <= end,
    end <= totalFrames and end - start + 1 <= 1000; [errors] holds the entry
    of a rule exactly when that rule is violated, so [valid] is the same as
    [errors] being empty; [frameCount] is end - start + 1; and
    [validateFrameRange(500, 100, 1000)] is invalid with the start <= end
    entry among its errors. *)
Theorem validateFrameRange_reports_every_violation :
  (forall startFrame endFrame totalFrames : Q,
      let v := validateFrameRange startFrame endFrame totalFrames in
      (Validation.valid v = true
       <-> range_rules startFrame endFrame totalFrames)
      /\ (Validation.valid v = true <-> Validation.errors v = [])
      /\ (In StartNotPositiveInteger (Validation.errors v)
          <-> ~ positive_integer startFrame)
      /\ (In EndNotPositiveInteger (Validation.errors v)
          <-> ~ positive_integer endFrame)
      /\ (In StartAfterEnd (Validation.errors v)
          <-> ~ (startFrame <= endFrame)%Q)
      /\ (In (EndExceedsTotal totalFrames) (Validation.errors v)
          <-> ~ (endFrame <= totalFrames)%Q)
      /\ (In TooManyFrames (Validation.errors v)
          <-> ~ (endFrame - startFrame + 1 <= 1000)%Q)
      /\ Validation.frameCount v = (endFrame - startFrame + 1)%Q)
  /\ Validation.valid (validateFrameRange 500 100 1000) = false
  /\ In StartAfterEnd (Validation.errors (validateFrameRange 500 100 1000)).
Proof.
  split; [|split; [reflexivity | vm_compute; auto]].
  intros s e t v. subst v. unfold validateFrameRange, range_rules.
  destruct (negb (JS.Number_isInteger s) || JS.lt s 1) eqn:E1;
    [apply positive_integer_check_true in E1
    | apply positive_integer_check in E1];
  (destruct (negb (JS.Number_isInteger e) || JS.lt e 1) eqn:E2;
    [apply positive_integer_check_true in E2
    | apply positive_integer_check in E2]);
  (destruct (JS.gt s e) eqn:E3;
    [apply gt_true_not_le in E3 | apply gt_false in E3]);
  (destruct (JS.gt e t) eqn:E4;
    [apply gt_true_not_le in E4 | apply gt_false in E4]);
  (destruct (JS.gt (e - s + 1) 1000) eqn:E5;
    [apply gt_true_not_le in E5 | apply gt_false in E5]);
  cbn [push_if app List.length Nat.eqb Validation.valid Validation.errors
       Validation.frameCount In];
  intuition (try discriminate; try congruence).
Qed.

(** ** [detectScenes]: option handling *)

Lemma or_truthy (x : option Q) (d : Q) :
  JS.truthy x = false -> JS.or x d = d.
Proof. destruct x as [v|]; simpl; [intros ->|]; reflexivity. Qed.

Lemma or_Some_nonzero (v d : Q) : ~ v == 0 -> JS.or (Some v) d = v.
Proof.
  intros H. unfold JS.or, JS.truthy.
  destruct (Qeq_bool v 0) eqn:E; [|reflexivity].
  apply Qeq_bool_iff in E. contradiction.
Qed.

Lemma or_nonzero (x : option Q) (d : Q) : ~ d == 0 -> ~ JS.or x d == 0.
Proof.
  intros Hd. destruct x as [v|]; [|exact Hd].
  unfold JS.or, JS.truthy. destruct (Qeq_bool v 0) eqn:E; simpl; [exact Hd|].
  intros H. apply Qeq_bool_iff in H. congruence.
Qed.

(** The frame rate [getVideoInfo] resolves with is never zero, and so the
    one [detectScenes] divides by is not either. *)
Lemma getVideoInfo_fps_nonzero (w : World.t) (info : VideoInfo.t) :
  getVideoInfo w = Ok info -> ~ VideoInfo.fps info == 0.
Proof.
  unfold getVideoInfo. destruct (World.ffprobe w); try discriminate.
  intros [= <-]. simpl. apply or_nonzero. discriminate.
Qed.

Lemma effective_fps_nonzero w options info :
  getVideoInfo w = Ok info -> ~ effective_fps options info == 0.
Proof.
  intros H. apply or_nonzero. exact (getVideoInfo_fps_nonzero w info H).
Qed.

Lemma clamp_bounds (lo hi x : Q) :
  (lo <= hi)%Q -> (lo <= clamp lo hi x)%Q /\ (clamp lo hi x <= hi)%Q.
Proof.
  intros H. unfold clamp. split.
  - apply Q.le_max_l.
  - apply Q.max_lub; [exact H | apply Q.le_min_l].
Qed.

Lemma normalizeMinSceneLength_bounds (m : option Q) (fps : Q) :
  (1 # 2 <= normalizeMinSceneLength m fps)%Q
  /\ (normalizeMinSceneLength m fps <= 60)%Q.
Proof.
  unfold normalizeMinSceneLength, JS.Math_max, JS.Math_min.
  apply (clamp_bounds (1 # 2) 60). discriminate.
Qed.

(** What [detectScenes] does once the first probe has resolved. *)
Lemma detectScenes_after_probe w options info :
  getVideoInfo w = Ok info ->
  detectScenes w options =
  match primary_run w options info with
  | Close 0 (Parsed {| PyResult.error := None; PyResult.scenes := scenes |}) =>
      Ok (match scenes with Some l => l | None => [] end)
  | _ => fallbackDetectScenes w (effective_minSceneLength options info)
                              (effective_fps options info)
  end.
Proof.
  intros H. unfold detectScenes. rewrite H. simpl.
  fold (effective_fps options info).
  fold (effective_minSceneLength options info).
  fold (effective_threshold options).
  fold (primary_run w options info).
  destruct (primary_run w options info) as [|code out]; [reflexivity|].
  destruct (Z.eqb_spec code 0) as [->|Hc]; simpl.
  - destruct out as [|[err sc]]; [reflexivity|]. simpl.
    destruct err; [reflexivity|]. destruct sc; reflexivity.
  - destruct code; try reflexivity. congruence.
Qed.

(** C6, as stated, at a supplied 0 and 30 fps: the code yields the default
    1.0 second where dividing-and-clamping the supplied value yields 0.5. *)
Lemma normalizeMinSceneLength_zero_replaced_not_clamped :
  normalizeMinSceneLength (Some 0%Q) 30 == 1
  /\ normalize_spec 0 30 == 1 # 2
  /\ ~ normalizeMinSceneLength (Some 0%Q) 30 == normalize_spec 0 30.
Proof. vm_compute. repeat split; discriminate. Qed.

(** C6 (amended): for a supplied minimum scene length other than 0 (a
    supplied 0 is falsy and replaced by the default), a value above 300 is
    divided by fps and the seconds are clamped to [0.5, 60]; 450 at 30 fps
    gives 15 seconds and 0.2 gives 0.5 seconds.  The frame rate is taken
    non-zero, as it is in [detectScenes] ([effective_fps_nonzero]): division
    by zero is outside the model of numbers. *)
Theorem normalizeMinSceneLength_supplied :
  (forall supplied fps : Q,
      ~ supplied == 0 -> ~ fps == 0 ->
      normalizeMinSceneLength (Some supplied) fps = normalize_spec supplied fps
      /\ (1 # 2 <= normalizeMinSceneLength (Some supplied) fps)%Q
      /\ (normalizeMinSceneLength (Some supplied) fps <= 60)%Q
      /\ ((300 < supplied)%Q ->
          normalizeMinSceneLength (Some supplied) fps
          = clamp (1 # 2) 60 (supplied / fps))
      /\ ((supplied <= 300)%Q ->
          normalizeMinSceneLength (Some supplied) fps
          = clamp (1 # 2) 60 supplied))
  /\ normalizeMinSceneLength (Some (450%Q)) 30 == 15
  /\ (forall fps : Q, normalizeMinSceneLength (Some (2 # 10)) fps == 1 # 2).
Proof.
  split; [|split; [reflexivity | intros fps; reflexivity]].
  intros v fps Hv Hfps.
  assert (E : normalizeMinSceneLength (Some v) fps = normalize_spec v fps).
  { unfold normalizeMinSceneLength, normalize_spec, clamp,
      JS.Math_max, JS.Math_min.
    rewrite (or_Some_nonzero v _ Hv). reflexivity. }
  split; [exact E|].
  destruct (normalizeMinSceneLength_bounds (Some v) fps) as [Hlo Hhi].
  repeat split; try assumption; rewrite E; unfold normalize_spec.
  - intros H. apply gt_spec in H. rewrite H. reflexivity.
  - intros H. apply gt_false in H. rewrite H. reflexivity.
Qed.

Lemma normalizeMinSceneLength_supplied_witness :
  normalizeMinSceneLength (Some 450%Q) 30 = normalize_spec 450 30
  /\ (1 # 2 <= normalizeMinSceneLength (Some 450%Q) 30)%Q.
Proof.
  destruct normalizeMinSceneLength_supplied as [H _].
  destruct (H 450%Q 30%Q) as [H1 [H2 _]]; [discriminate | discriminate |].
  split; [exact H1 | exact H2].
Defined.

(** C10: a falsy [minSceneLength] (0 or absent) makes [detectScenes] behave
    as if the option were omitted: the minimum scene length is the default
    1.0 second, not the 0.5-second floor. *)
Theorem detectScenes_falsy_minSceneLength_is_default :
  forall (m : option Q),
    JS.truthy m = false ->
    (forall fps : Q,
        normalizeMinSceneLength m fps = normalizeMinSceneLength None fps
        /\ normalizeMinSceneLength m fps = DEFAULT_MIN_SCENE_LENGTH
        /\ ~ normalizeMinSceneLength m fps == 1 # 2)
    /\ (forall (w : World.t) (fps threshold : option Q),
           detectScenes w (Options.mk fps m threshold)
           = detectScenes w (Options.mk fps None threshold)).
Proof.
  intros m Hm.
  assert (E : forall fps,
             normalizeMinSceneLength m fps = normalizeMinSceneLength None fps).
  { intros fps. unfold normalizeMinSceneLength.
    rewrite (or_truthy m _ Hm). reflexivity. }
  split.
  - intros fps. rewrite E. repeat split. discriminate.
  - intros w fps threshold. unfold detectScenes. simpl.
    destruct (getVideoInfo w) as [info|e]; simpl; [|reflexivity].
    rewrite E. reflexivity.
Qed.

Lemma detectScenes_falsy_minSceneLength_is_default_witness :
  normalizeMinSceneLength (Some 0%Q) 30 = DEFAULT_MIN_SCENE_LENGTH
  /\ detectScenes late_cut_world (Options.mk None (Some 0%Q) None)
     = detectScenes late_cut_world (Options.mk None None None).
Proof.
  destruct (detectScenes_falsy_minSceneLength_is_default (Some 0%Q) eq_refl)
    as [H1 H2].
  split; [apply (H1 30%Q) | apply H2].
Defined.

(** ** [detectScenes]: recovery from primary failures *)

Lemma primary_run_cases (r : PythonRun) :
  PrimaryFailure r
  \/ exists scenes,
      r = Close 0 (Parsed {| PyResult.error := None;
                             PyResult.scenes := scenes |}).
Proof.
  destruct r as [|code out].
  - left. apply SpawnFailure.
  - destruct (Z.eq_dec code 0) as [->|Hc].
    + destruct out as [|[[msg|] sc]].
      * left. apply UnparseableOutput.
      * left. apply ErrorField.
      * right. exists sc. reflexivity.
    + left. apply NonZeroExit. exact Hc.
Qed.

Lemma detectScenes_on_primary_failure w options info :
  getVideoInfo w = Ok info ->
  PrimaryFailure (primary_run w options info) ->
  detectScenes w options
  = fallbackDetectScenes w (effective_minSceneLength options info)
                         (effective_fps options info).
Proof.
  intros Hprobe Hfail.
  rewrite (detectScenes_after_probe w options info Hprobe).
  inversion Hfail as [code out Hc E| E | msg sc E | E]; try reflexivity.
  destruct code; [congruence | reflexivity | reflexivity].
Qed.

(** C4: once the video has been probed, each of the four failures of the
    primary detector (non-zero exit, unparseable stdout, error field, spawn
    failure) makes [detectScenes] return exactly what the fallback detector
    returns, whatever the primary printed; and [detectScenes] rejects only
    when the primary failed and the fallback rejected, with the fallback's
    error. *)
Theorem detectScenes_absorbs_primary_failure :
  forall (w : World.t) (options : Options.t) (info : VideoInfo.t),
    getVideoInfo w = Ok info ->
    (PrimaryFailure (primary_run w options info) ->
     detectScenes w options
     = fallbackDetectScenes w (effective_minSceneLength options info)
                            (effective_fps options info))
    /\ (forall e : Error,
           detectScenes w options = Rejected e ->
           PrimaryFailure (primary_run w options info)
           /\ fallbackDetectScenes w (effective_minSceneLength options info)
                                   (effective_fps options info)
              = Rejected e).
Proof.
  intros w options info Hprobe. split.
  - apply detectScenes_on_primary_failure. exact Hprobe.
  - intros e He.
    destruct (primary_run_cases (primary_run w options info)) as [Hf|[sc E]].
    + split; [exact Hf|].
      rewrite <- (detectScenes_on_primary_failure w options info Hprobe Hf).
      exact He.
    + rewrite (detectScenes_after_probe w options info Hprobe), E in He.
      discriminate.
Qed.

Lemma detectScenes_absorbs_primary_failure_witness :
  exists info : VideoInfo.t,
    getVideoInfo late_cut_world = Ok info
    /\ detectScenes late_cut_world Options.empty
       = fallbackDetectScenes late_cut_world
           (effective_minSceneLength Options.empty info)
           (effective_fps Options.empty info).
Proof.
  eexists. split; [reflexivity|].
  apply (detectScenes_absorbs_primary_failure late_cut_world Options.empty
           _ eq_refl).
  apply SpawnFailure.
Defined.

(** ** The fallback detector: boundary placement *)

Lemma onStderr_place_boundary threshold minSceneLength fps frames st :
  fold_left (onStderr minSceneLength fps) (showinfo threshold frames) st
  = fold_left (place_boundary threshold minSceneLength fps) frames st.
Proof.
  revert st. induction frames as [|f frames IH]; intros st; [reflexivity|].
  unfold showinfo in *. cbn [filter fold_left].
  unfold place_boundary at 2. unfold select_gt_scene at 1.
  destruct (JS.gt (Frame.scene f) threshold); cbn [map fold_left andb].
  - rewrite IH. f_equal. unfold onStderr, close_scene, frameNum.
    rewrite Z.geb_leb. reflexivity.
  - apply IH.
Qed.

(** The fallback path, written with the boundary rule over the whole
    signal. *)
Lemma fallbackDetectScenes_run w minSceneLengthSec fps info frames :
  getVideoInfo w = Ok info ->
  World.ffmpeg w = Some frames ->
  fallbackDetectScenes w minSceneLengthSec fps
  = Ok (map_index (cleanScene info) 0
          (onEnd (JS.Math_round (minSceneLengthSec * fps)) fps info
             (fold_left
                (place_boundary FFMPEG_THRESHOLD
                   (JS.Math_round (minSceneLengthSec * fps)) fps)
                frames Detector.init))).
Proof.
  intros Hprobe Hff. unfold fallbackDetectScenes, detectScenesFFmpeg.
  rewrite Hff, Hprobe. cbn [bind].
  rewrite onStderr_place_boundary. reflexivity.
Qed.

Lemma close_scene_changes fps st f : close_scene fps st f <> st.
Proof.
  intros H. apply (f_equal (fun d => List.length (Detector.scenes d))) in H.
  unfold close_scene in H. cbn [Detector.scenes] in H.
  rewrite length_app in H. simpl in H. lia.
Qed.

(** C8, as stated, for a 300-frame video whose frame at 2.0 s has scene score
    0.5 and the default threshold 20: the score does not exceed the
    caller's threshold, yet a boundary is placed at frame 60; the stated
    rule with the caller's threshold would give the single scene 1..300. *)
Lemma fallback_threshold_not_caller_threshold :
  JS.gt (1 # 2) (effective_threshold Options.empty) = false
  /\ JS.gt (1 # 2) FFMPEG_THRESHOLD = true
  /\ match getVideoInfo mild_cut_world,
           detectScenes mild_cut_world Options.empty with
     | Ok info, Ok scenes =>
         map scene_frames scenes = [(1, 60); (61, 300)]
         /\ map scene_frames
              (map_index (cleanScene info) 0
                 (onEnd 30 30 info
                    (fold_left
                       (place_boundary (effective_threshold Options.empty)
                          30 30)
                       [Frame.mk 2 (1 # 2)] Detector.init)))
            = [(1, 300)]
     | _, _ => False
     end.
Proof. vm_compute. repeat split. Qed.

(** C8 (amended): when the primary detector fails, the scenes returned come
    from placing boundaries over the content-difference signal with the
    fixed threshold 0.3 (the threshold option reaches only the primary
    detector): a boundary is placed at a frame exactly when its signal
    exceeds 0.3 and the frame lies at least minSceneLengthFrames
    (= round(minSceneLengthSeconds * fps)) after the start of the open
    scene; there the open scene is closed at that frame and the next one
    opens at frame + 1. *)
Theorem fallback_boundary_rule :
  forall (w : World.t) (options : Options.t) (info : VideoInfo.t)
         (frames : list Frame.t),
    getVideoInfo w = Ok info ->
    PrimaryFailure (primary_run w options info) ->
    World.ffmpeg w = Some frames ->
    let fps := effective_fps options info in
    let minSceneLengthFrames :=
      JS.Math_round (effective_minSceneLength options info * fps) in
    let step := place_boundary FFMPEG_THRESHOLD minSceneLengthFrames fps in
    detectScenes w options
    = Ok (map_index (cleanScene info) 0
            (onEnd minSceneLengthFrames fps info
               (fold_left step frames Detector.init)))
    /\ forall (st : Detector.t) (f : Frame.t),
        ((3 # 10 < Frame.scene f)%Q
         /\ minSceneLengthFrames
            <= frameNum fps f - Detector.lastSceneFrame st
         <-> step st f <> st)
        /\ (step st f <> st ->
            Detector.scenes (step st f)
            = Detector.scenes st
              ++ [ {| RawScene.start_frame := Detector.lastSceneFrame st;
                      RawScene.end_frame := frameNum fps f;
                      RawScene.start_time :=
                        (inject_Z (Detector.lastSceneFrame st - 1) / fps)%Q;
                      RawScene.end_time := Frame.pts_time f |} ]
            /\ Detector.lastSceneFrame (step st f) = frameNum fps f + 1).
Proof.
  intros w options info frames Hprobe Hfail Hff fps minF step.
  split.
  - rewrite (detectScenes_on_primary_failure w options info Hprobe Hfail).
    apply fallbackDetectScenes_run; assumption.
  - intros st f. subst step. unfold place_boundary.
    destruct (JS.gt (Frame.scene f) FFMPEG_THRESHOLD) eqn:Eg;
      destruct (Z.leb_spec minF (frameNum fps f - Detector.lastSceneFrame st))
        as [Hd|Hd]; cbn [andb].
    + apply gt_spec in Eg. split.
      * split; [intros _; apply close_scene_changes | intros _; split; assumption].
      * intros _. split; reflexivity.
    + split; [split|]; [intros [_ H]; lia | congruence | congruence].
    + apply gt_false in Eg. split; [split|]; try congruence.
      intros [H _]. exfalso. exact (Qlt_not_le _ _ H Eg).
    + split; [split|]; [intros [_ H]; lia | congruence | congruence].
Qed.

Lemma fallback_boundary_rule_witness :
  exists info : VideoInfo.t,
    getVideoInfo mild_cut_world = Ok info
    /\ detectScenes mild_cut_world Options.empty
       = Ok (map_index (cleanScene info) 0
               (onEnd 30 30 info
                  (fold_left (place_boundary FFMPEG_THRESHOLD 30 30)
                     [Frame.mk 2 (1 # 2)] Detector.init))).
Proof.
  eexists. split; [reflexivity|].
  apply (fallback_boundary_rule mild_cut_world Options.empty _
           [Frame.mk 2 (1 # 2)] eq_refl SpawnFailure eq_refl).
Defined.

(** ** The fallback detector: coverage *)

Lemma tiles_snoc a l b e :
  tiles a l b -> b <= e -> tiles a (l ++ [(b, e)]) (e + 1).
Proof.
  revert a. induction l as [|[s0 e0] l IH]; intros a H Hbe; simpl in *.
  - subst. repeat split; lia.
  - destruct H as [Hs [Hse Ht]]. repeat split; try assumption.
    apply IH; assumption.
Qed.

Lemma tiles_bounds a l b :
  tiles a l b ->
  a <= b /\ Forall (fun p => a <= fst p /\ snd p < b) l.
Proof.
  revert a. induction l as [|[s0 e0] l IH]; intros a H; simpl in *.
  - subst. split; [lia | constructor].
  - destruct H as [Hs [Hse Ht]]. destruct (IH _ Ht) as [Hle Hall].
    split; [lia|]. constructor; [simpl; lia|].
    eapply Forall_impl; [|exact Hall]. simpl. intros p [H1 H2]. lia.
Qed.

Lemma Math_round_nonneg (x : Q) : (0 <= x)%Q -> 0 <= JS.Math_round x.
Proof.
  intros H. unfold JS.Math_round.
  change 0 with (Qfloor 0). apply Qfloor_resp_le.
  rewrite <- (Qplus_0_r 0). apply Qplus_le_compat; [exact H | discriminate].
Qed.

Lemma half_le (m a : Z) :
  JS.ge (inject_Z a) (inject_Z m / 2) = true <-> m <= 2 * a.
Proof.
  rewrite ge_spec. unfold Qle, Qdiv, Qmult, Qinv, inject_Z.
  cbn [Qnum Qden Z.pos_sub Pos.mul]. lia.
Qed.

Lemma place_boundary_inv threshold minSceneLength fps total st f :
  0 <= minSceneLength ->
  frameNum fps f <= total ->
  detector_inv total st ->
  detector_inv total (place_boundary threshold minSceneLength fps st f).
Proof.
  intros Hmin Hf [Ht Hl]. unfold place_boundary.
  destruct (JS.gt (Frame.scene f) threshold); cbn [andb];
    [|split; assumption].
  destruct (Z.leb_spec minSceneLength
              (frameNum fps f - Detector.lastSceneFrame st));
    [|split; assumption].
  unfold detector_inv, close_scene. cbn [Detector.scenes Detector.lastSceneFrame].
  rewrite map_app. cbn [map raw_frames RawScene.start_frame RawScene.end_frame].
  split; [apply tiles_snoc; [exact Ht | simpl; lia] | lia].
Qed.

Lemma fold_place_boundary_inv threshold minSceneLength fps total frames st :
  0 <= minSceneLength ->
  Forall (fun f => frameNum fps f <= total) frames ->
  detector_inv total st ->
  detector_inv total
    (fold_left (place_boundary threshold minSceneLength fps) frames st).
Proof.
  intros Hmin Hall. revert st.
  induction Hall as [|f frames Hf Hall IH]; intros st Hst; [exact Hst|].
  cbn [fold_left]. apply IH. apply place_boundary_inv; assumption.
Qed.

(** What the ['end'] handler leaves: the scenes tile the frames 1..b, where
    b is the last frame of the video, or the last boundary when the rest of
    the video was too short for a scene of its own. *)
Lemma onEnd_tiles minSceneLength fps info st :
  0 <= minSceneLength ->
  1 <= VideoInfo.total_frames info ->
  detector_inv (VideoInfo.total_frames info) st ->
  let raws := onEnd minSceneLength fps info st in
  raws <> []
  /\ exists b,
      tiles 1 (map raw_frames raws) (b + 1)
      /\ b <= VideoInfo.total_frames info
      /\ (b = VideoInfo.total_frames info
          \/ 2 * (VideoInfo.total_frames info - (b + 1)) < minSceneLength).
Proof.
  intros Hmin Htot [Ht Hl]. unfold onEnd. cbn zeta.
  set (total := VideoInfo.total_frames info) in *.
  set (last := Detector.lastSceneFrame st) in *.
  assert (Hpush :
    last <= total ->
    let raws := Detector.scenes st
                ++ [ {| RawScene.start_frame := last;
                        RawScene.end_frame := total;
                        RawScene.start_time := (inject_Z (last - 1) / fps)%Q;
                        RawScene.end_time := VideoInfo.duration info |} ] in
    raws <> []
    /\ exists b, tiles 1 (map raw_frames raws) (b + 1)
                 /\ b <= total
                 /\ (b = total \/ 2 * (total - (b + 1)) < minSceneLength)).
  { intros Hle raws. subst raws. split.
    - intros H. apply app_eq_nil in H. destruct H as [_ H]. discriminate.
    - exists total. rewrite map_app. split; [|lia].
      apply tiles_snoc; assumption. }
  destruct (JS.ge (inject_Z (total - last)) (inject_Z minSceneLength / 2))
    eqn:Ege; cbn [orb].
  - apply half_le in Ege. apply Hpush. lia.
  - destruct (Detector.scenes st) as [|r rs] eqn:Esc; cbn [List.length Nat.eqb].
    + apply Hpush. simpl in Ht. lia.
    + split; [discriminate|]. exists (last - 1).
      replace (last - 1 + 1) with last by lia.
      split; [exact Ht|]. split; [lia|]. right.
      assert (~ minSceneLength <= 2 * (total - last)).
      { intros H. apply half_le in H. congruence. }
      lia.
Qed.

Lemma cleanScene_frames info raws index :
  Forall (fun p => 1 <= fst p /\ snd p < VideoInfo.total_frames info + 1)
         (map raw_frames raws) ->
  map scene_frames (map_index (cleanScene info) index raws)
  = map raw_frames raws.
Proof.
  revert index. induction raws as [|r raws IH]; intros index H; [reflexivity|].
  inversion H as [|p ps [H1 H2] Hrest]; subst.
  cbn [map_index map]. rewrite IH by assumption. f_equal.
  unfold scene_frames, raw_frames, cleanScene in *. simpl in *.
  rewrite !Math_round_Z. f_equal; lia.
Qed.

Lemma map_index_nil {A B : Type} (f : A -> Z -> B) index l :
  map_index f index l = [] -> l = [].
Proof. destruct l; [reflexivity | discriminate]. Qed.

(** C3, as stated, for a 100-frame video with one cut at frame 90 and the
    default minimum length of 30 frames: the only scene is 1..90, the frames
    91..100 belong to no scene. *)
Lemma late_cut_not_covered :
  match getVideoInfo late_cut_world,
        detectScenes late_cut_world Options.empty with
  | Ok info, Ok scenes =>
      VideoInfo.total_frames info = 100
      /\ map scene_frames scenes = [(1, 90)]
      /\ ~ covers_video scenes (VideoInfo.total_frames info)
  | _, _ => False
  end.
Proof.
  vm_compute. repeat split.
  intros [_ [_ [_ H]]]. discriminate.
Qed.

(** C3 (amended): when the primary detector fails and the fallback runs on a
    video of at least one frame whose analysed frames lie within the video,
    the scenes returned are non-empty, start at frame 1, each have
    start_frame <= end_frame, and each next scene starts one frame after the
    previous one ends; the last scene ends at total_frames, or at the last
    boundary when the remaining frames were dropped as too short
    (total_frames - start of the rest < minSceneLengthFrames / 2). *)
Theorem fallback_scenes_contiguous :
  forall (w : World.t) (options : Options.t) (info : VideoInfo.t)
         (frames : list Frame.t),
    getVideoInfo w = Ok info ->
    PrimaryFailure (primary_run w options info) ->
    World.ffmpeg w = Some frames ->
    1 <= VideoInfo.total_frames info ->
    (0 < effective_fps options info)%Q ->
    Forall (fun f => frameNum (effective_fps options info) f
                     <= VideoInfo.total_frames info) frames ->
    exists (scenes : list Scene.t) (b : Z),
      detectScenes w options = Ok scenes
      /\ covers_video scenes b
      /\ b <= VideoInfo.total_frames info
      /\ (b = VideoInfo.total_frames info
          \/ 2 * (VideoInfo.total_frames info - (b + 1))
             < JS.Math_round (effective_minSceneLength options info
                              * effective_fps options info)).
Proof.
  intros w options info frames Hprobe Hfail Hff Htot Hfps Hframes.
  set (fps := effective_fps options info) in *.
  set (minF := JS.Math_round (effective_minSceneLength options info * fps)).
  assert (Hmin : 0 <= minF).
  { apply Math_round_nonneg. apply Qmult_le_0_compat.
    - eapply Qle_trans;
        [|apply (normalizeMinSceneLength_bounds
                   (Options.minSceneLength options) fps)].
      discriminate.
    - apply Qlt_le_weak. exact Hfps. }
  assert (Hinv : detector_inv (VideoInfo.total_frames info)
                   (fold_left (place_boundary FFMPEG_THRESHOLD minF fps)
                      frames Detector.init)).
  { apply fold_place_boundary_inv; try assumption.
    split; simpl; [reflexivity | lia]. }
  destruct (onEnd_tiles minF fps info _ Hmin Htot Hinv)
    as [Hne [b [Ht [Hb Htail]]]].
  eexists. exists b. split.
  - rewrite (detectScenes_on_primary_failure w options info Hprobe Hfail).
    exact (fallbackDetectScenes_run w _ _ info frames Hprobe Hff).
  - destruct (tiles_bounds _ _ _ Ht) as [_ Hall]. unfold covers_video.
    rewrite cleanScene_frames.
    + split; [split; [|exact Ht] | split; assumption].
      intros H. apply map_index_nil in H. contradiction.
    + eapply Forall_impl; [|exact Hall]. simpl. intros p [H1 H2]. lia.
Qed.

Lemma fallback_scenes_contiguous_witness :
  exists (scenes : list Scene.t) (b : Z),
    detectScenes mild_cut_world Options.empty = Ok scenes
    /\ covers_video scenes b
    /\ b <= 300.
Proof.
  destruct (fallback_scenes_contiguous mild_cut_world Options.empty _ _
              eq_refl SpawnFailure eq_refl)
    as [scenes [b [H1 [H2 [H3 _]]]]].
  - vm_compute. discriminate.
  - reflexivity.
  - repeat constructor. vm_compute. discriminate.
  - exists scenes, b. split; [exact H1 | split; [exact H2 | exact H3]].
Defined.

(** ** The fallback detector: post-processing *)

Lemma detectScenes_fallback_inv w options info scenes :
  getVideoInfo w = Ok info ->
  PrimaryFailure (primary_run w options info) ->
  detectScenes w options = Ok scenes ->
  exists raws : list RawScene.t,
    detectScenesFFmpeg w FFMPEG_THRESHOLD
      (JS.Math_round (effective_minSceneLength options info
                      * effective_fps options info))
      (effective_fps options info)
    = Ok raws
    /\ scenes = map_index (cleanScene info) 0 raws.
Proof.
  intros Hprobe Hfail.
  rewrite (detectScenes_on_primary_failure w options info Hprobe Hfail).
  unfold fallbackDetectScenes.
  destruct (detectScenesFFmpeg w FFMPEG_THRESHOLD _ _) as [raws|e];
    cbn [bind]; [|discriminate].
  rewrite Hprobe. cbn [bind]. intros [= <-].
  exists raws. split; reflexivity.
Qed.

Lemma whole_ms_toFixed3 (x : Q) : whole_ms (JS.toFixed3 x).
Proof.
  unfold JS.toFixed3, whole_ms. destruct (Qle_bool 0 x).
  - eexists. reflexivity.
  - exists (- Qfloor (- x * 1000 + (1 # 2))). reflexivity.
Qed.

Lemma times_1000 (x : Q) (n : Z) : x == n # 1000 -> x * 1000 == inject_Z n.
Proof.
  intros H. rewrite H. unfold Qeq, Qmult, inject_Z. simpl. lia.
Qed.

Lemma toFixed3_whole_ms (x : Q) : whole_ms x -> JS.toFixed3 x == x.
Proof.
  intros [n Hn]. unfold JS.toFixed3. destruct (Qle_bool 0 x).
  - change (Qfloor (x * 1000 + (1 # 2))) with (JS.Math_round (x * 1000)).
    unfold JS.Math_round. rewrite (times_1000 x n Hn).
    change (Qfloor (inject_Z n + (1 # 2))) with (JS.Math_round (inject_Z n)).
    rewrite Math_round_Z. symmetry. exact Hn.
  - assert (Hneg : - x * 1000 == inject_Z (- n)).
    { apply times_1000. rewrite Hn. reflexivity. }
    rewrite Hneg.
    change (Qfloor (inject_Z (- n) + (1 # 2)))
      with (JS.Math_round (inject_Z (- n))).
    rewrite Math_round_Z, Hn. unfold Qeq. simpl. lia.
Qed.

Lemma whole_ms_minus (x y : Q) : whole_ms x -> whole_ms y -> whole_ms (x - y).
Proof.
  intros [n Hn] [m Hm]. exists (n - m). rewrite Hn, Hm.
  unfold Qeq, Qminus, Qplus, Qopp. simpl. lia.
Qed.

Lemma cleanScene_post_processed info raw index :
  post_processed info (cleanScene info raw index).
Proof.
  unfold post_processed, cleanScene, JS.Math_max, JS.Math_min. simpl.
  split; [lia|]. split; [lia|].
  split; [apply Q.le_max_l|]. split; [apply Q.le_min_l|]. split.
  - destruct (Q.max_spec 0 (JS.toFixed3 (RawScene.start_time raw)))
      as [[_ E]|[_ E]].
    + destruct (whole_ms_toFixed3 (RawScene.start_time raw)) as [n Hn].
      exists n. rewrite E. exact Hn.
    + exists 0. rewrite E. reflexivity.
  - destruct (Q.min_spec (VideoInfo.duration info)
                (JS.toFixed3 (RawScene.end_time raw))) as [[_ E]|[_ E]].
    + right. exact E.
    + left. destruct (whole_ms_toFixed3 (RawScene.end_time raw)) as [n Hn].
      exists n. rewrite E. exact Hn.
Qed.

Lemma map_index_post_processed info raws index :
  Forall (post_processed info) (map_index (cleanScene info) index raws).
Proof.
  revert index. induction raws as [|r raws IH]; intros index; simpl.
  - constructor.
  - constructor; [apply cleanScene_post_processed | apply IH].
Qed.

Lemma nth_error_map_index {A B : Type} (f : A -> Z -> B) l index k :
  nth_error (map_index f index l) k
  = option_map (fun x => f x (index + Z.of_nat k)) (nth_error l k).
Proof.
  revert index k. induction l as [|x l IH]; intros index k.
  - destruct k; reflexivity.
  - destruct k as [|k].
    + simpl. rewrite Z.add_0_r. reflexivity.
    + cbn [map_index nth_error]. rewrite IH.
      destruct (nth_error l k); cbn [option_map]; [|reflexivity].
      do 2 f_equal. lia.
Qed.

(** C5, as stated, for a primary detector that exits with 0 and prints a
    scene from frame 0 to frame 500 of a 100-frame video: the scene is
    returned as printed. *)
Lemma primary_scenes_not_post_processed :
  match getVideoInfo primary_world,
        detectScenes primary_world Options.empty with
  | Ok info, Ok scenes =>
      scenes = [unclamped_scene]
      /\ ~ Forall (post_processed info) scenes
  | _, _ => False
  end.
Proof.
  cbv [getVideoInfo detectScenes primary_world World.ffprobe World.python bind].
  cbv [PyResult.error PyResult.scenes Z.eqb negb].
  split; [reflexivity|].
  intros H. inversion H as [|s l [H1 _] _]. subst.
  vm_compute in H1. apply H1. reflexivity.
Qed.

(** C5 (amended): every scene [detectScenes] returns after a failure of the
    primary detector is the fallback detector's scene passed through the
    post-processing step: start_frame is at least 1, end_frame at most
    total_frames, start_time at least 0, end_time at most the duration, and
    the times are whole milliseconds (or the duration itself, when end_time
    was clamped to it).  Scenes of a successful primary detector are returned
    as printed. *)
Theorem fallback_scenes_post_processed :
  forall (w : World.t) (options : Options.t) (info : VideoInfo.t),
    getVideoInfo w = Ok info ->
    (PrimaryFailure (primary_run w options info) ->
     forall scenes : list Scene.t,
       detectScenes w options = Ok scenes ->
       (exists raws : list RawScene.t,
           detectScenesFFmpeg w FFMPEG_THRESHOLD
             (JS.Math_round (effective_minSceneLength options info
                             * effective_fps options info))
             (effective_fps options info)
           = Ok raws
           /\ scenes = map_index (cleanScene info) 0 raws)
       /\ Forall (post_processed info) scenes)
    /\ (forall printed : list Scene.t,
           primary_run w options info
           = Close 0 (Parsed {| PyResult.error := None;
                                PyResult.scenes := Some printed |}) ->
           detectScenes w options = Ok printed).
Proof.
  intros w options info Hprobe. split.
  - intros Hfail scenes Hok.
    destruct (detectScenes_fallback_inv w options info scenes Hprobe Hfail Hok)
      as [raws [Hraws ->]].
    split; [exists raws; split; [exact Hraws | reflexivity]|].
    apply map_index_post_processed.
  - intros printed Hrun.
    rewrite (detectScenes_after_probe w options info Hprobe), Hrun.
    reflexivity.
Qed.

Lemma fallback_scenes_post_processed_witness :
  exists (info : VideoInfo.t) (scenes : list Scene.t),
    getVideoInfo late_cut_world = Ok info
    /\ detectScenes late_cut_world Options.empty = Ok scenes
    /\ Forall (post_processed info) scenes.
Proof.
  eexists. eexists. split; [reflexivity|]. split; [reflexivity|].
  apply (proj1 (fallback_scenes_post_processed late_cut_world Options.empty
                  _ eq_refl) SpawnFailure _ eq_refl).
Defined.

(** ** The fallback detector: the duration field *)

(** C9, as stated, for the second scene of a video cut at 1.333333 s and
    3.066667 s: start_time 1.333, end_time 3.067, duration 1.733. *)
Lemma two_cut_duration_not_recomputed :
  match detectScenes two_cut_world Options.empty with
  | Ok [_; s; _] =>
      Scene.start_time s == 1333 # 1000
      /\ Scene.end_time s == 3067 # 1000
      /\ Scene.duration s == 1733 # 1000
      /\ ~ Scene.duration s == Scene.end_time s - Scene.start_time s
  | _ => False
  end.
Proof. vm_compute. repeat split; discriminate. Qed.

Lemma cleanScene_duration_whole_times info raw index :
  whole_ms (RawScene.start_time raw) ->
  whole_ms (RawScene.end_time raw) ->
  (0 <= RawScene.start_time raw)%Q ->
  (RawScene.end_time raw <= VideoInfo.duration info)%Q ->
  Scene.duration (cleanScene info raw index)
  == Scene.end_time (cleanScene info raw index)
     - Scene.start_time (cleanScene info raw index).
Proof.
  intros Hs He H0 Hd. unfold cleanScene, JS.Math_max, JS.Math_min. simpl.
  rewrite (toFixed3_whole_ms _ (whole_ms_minus _ _ He Hs)).
  assert (Es : Qmax 0 (JS.toFixed3 (RawScene.start_time raw))
               == RawScene.start_time raw).
  { rewrite Q.max_r; [apply toFixed3_whole_ms; exact Hs|].
    rewrite (toFixed3_whole_ms _ Hs). exact H0. }
  assert (Ee : Qmin (VideoInfo.duration info)
                 (JS.toFixed3 (RawScene.end_time raw))
               == RawScene.end_time raw).
  { rewrite Q.min_r; [apply toFixed3_whole_ms; exact He|].
    rewrite (toFixed3_whole_ms _ He). exact Hd. }
  rewrite Es, Ee. reflexivity.
Qed.

(** C9 (amended): for every scene of the fallback path, the duration field
    is the millisecond rounding of the difference of the detector's own
    end_time and start_time, taken before they are rounded and clamped; it
    equals the returned end_time - start_time when those times were already
    whole milliseconds within [0, duration]. *)
Theorem fallback_duration_from_unclamped_times :
  forall (w : World.t) (options : Options.t) (info : VideoInfo.t),
    getVideoInfo w = Ok info ->
    PrimaryFailure (primary_run w options info) ->
    forall scenes : list Scene.t,
      detectScenes w options = Ok scenes ->
      exists raws : list RawScene.t,
        detectScenesFFmpeg w FFMPEG_THRESHOLD
          (JS.Math_round (effective_minSceneLength options info
                          * effective_fps options info))
          (effective_fps options info)
        = Ok raws
        /\ forall (i : nat) (s : Scene.t),
            nth_error scenes i = Some s ->
            exists raw : RawScene.t,
              nth_error raws i = Some raw
              /\ Scene.duration s
                 = JS.toFixed3 (RawScene.end_time raw
                                - RawScene.start_time raw)
              /\ whole_ms (Scene.duration s)
              /\ (whole_ms (RawScene.start_time raw) ->
                  whole_ms (RawScene.end_time raw) ->
                  (0 <= RawScene.start_time raw)%Q ->
                  (RawScene.end_time raw <= VideoInfo.duration info)%Q ->
                  Scene.duration s
                  == Scene.end_time s - Scene.start_time s).
Proof.
  intros w options info Hprobe Hfail scenes Hok.
  destruct (detectScenes_fallback_inv w options info scenes Hprobe Hfail Hok)
    as [raws [Hraws ->]].
  exists raws. split; [exact Hraws|].
  intros i s Hi. rewrite nth_error_map_index in Hi.
  destruct (nth_error raws i) as [raw|]; [|discriminate].
  cbn [option_map] in Hi. injection Hi as <-.
  exists raw. split; [reflexivity|]. split; [reflexivity|].
  split; [apply whole_ms_toFixed3|].
  apply cleanScene_duration_whole_times.
Qed.

Lemma fallback_duration_from_unclamped_times_witness :
  exists (scenes : list Scene.t) (raws : list RawScene.t),
    detectScenes two_cut_world Options.empty = Ok scenes
    /\ forall (i : nat) (s : Scene.t),
        nth_error scenes i = Some s ->
        exists raw : RawScene.t,
          nth_error raws i = Some raw
          /\ Scene.duration s
             = JS.toFixed3 (RawScene.end_time raw - RawScene.start_time raw).
Proof.
  eexists.
  destruct (fallback_duration_from_unclamped_times two_cut_world Options.empty
              _ eq_refl SpawnFailure _ eq_refl) as [raws [_ H]].
  exists raws. split; [reflexivity|].
  intros i s Hi. destruct (H i s Hi) as [raw [H1 [H2 _]]].
  exists raw. split; assumption.
Defined.

(** * Further properties of the code *)

(** ** [calculateFrameRange] and [validateFrameRange] together *)

Lemma lt_inject (a b : Z) : JS.lt (inject_Z a) (inject_Z b) = (a <? b).
Proof.
  apply eq_true_iff_eq. rewrite lt_spec, Z.ltb_lt, <- Zlt_Qlt. reflexivity.
Qed.

Lemma gt_inject (a b : Z) : JS.gt (inject_Z a) (inject_Z b) = (b <? a).
Proof. unfold JS.gt. apply lt_inject. Qed.

Lemma frameCount_inject (s e : Z) :
  (inject_Z e - inject_Z s + 1 == inject_Z (e - s + 1))%Q.
Proof. unfold Qeq, Qminus, Qplus, Qopp, inject_Z. simpl. lia. Qed.

Lemma gt_frameCount_inject (s e : Z) :
  JS.gt (inject_Z e - inject_Z s + 1) 1000 = (1000 <? e - s + 1).
Proof.
  apply eq_true_iff_eq. rewrite gt_spec, Z.ltb_lt, frameCount_inject.
  change 1000%Q with (inject_Z 1000). rewrite <- Zlt_Qlt. reflexivity.
Qed.

Lemma Number_isInteger_inject (n : Z) : JS.Number_isInteger (inject_Z n) = true.
Proof. apply Number_isInteger_spec. exists n. reflexivity. Qed.

(** The list [validateFrameRange] builds, one optional entry per check. *)
Lemma validateFrameRange_errors (s e t : Q) :
  Validation.errors (validateFrameRange s e t)
  = (if negb (JS.Number_isInteger s) || JS.lt s 1
     then [StartNotPositiveInteger] else [])
    ++ (if negb (JS.Number_isInteger e) || JS.lt e 1
        then [EndNotPositiveInteger] else [])
    ++ (if JS.gt s e then [StartAfterEnd] else [])
    ++ (if JS.gt e t then [EndExceedsTotal t] else [])
    ++ (if JS.gt (e - s + 1) 1000 then [TooManyFrames] else []).
Proof.
  unfold validateFrameRange, push_if. cbn [Validation.errors].
  destruct (negb (JS.Number_isInteger s) || JS.lt s 1);
    destruct (negb (JS.Number_isInteger e) || JS.lt e 1);
    destruct (JS.gt s e); destruct (JS.gt e t);
    destruct (JS.gt (e - s + 1) 1000); reflexivity.
Qed.

Lemma validateFrameRange_valid (s e t : Q) :
  Validation.valid (validateFrameRange s e t)
  = negb (negb (JS.Number_isInteger s) || JS.lt s 1)
    && negb (negb (JS.Number_isInteger e) || JS.lt e 1)
    && negb (JS.gt s e) && negb (JS.gt e t)
    && negb (JS.gt (e - s + 1) 1000).
Proof.
  change (Validation.valid (validateFrameRange s e t))
    with (List.length (Validation.errors (validateFrameRange s e t)) =? 0)%nat.
  rewrite validateFrameRange_errors.
  destruct (negb (JS.Number_isInteger s) || JS.lt s 1);
    destruct (negb (JS.Number_isInteger e) || JS.lt e 1);
    destruct (JS.gt s e); destruct (JS.gt e t);
    destruct (JS.gt (e - s + 1) 1000); reflexivity.
Qed.

Lemma validateFrames_valid_iff (s e t : Z) :
  Validation.valid (validateFrames s e t) = true
  <-> 1 <= s /\ s <= e /\ e <= t /\ e - s + 1 <= 1000.
Proof.
  unfold validateFrames. rewrite validateFrameRange_valid.
  rewrite !Number_isInteger_inject, gt_frameCount_inject, !gt_inject.
  change 1%Q with (inject_Z 1). rewrite !lt_inject. cbn [negb orb].
  rewrite !andb_true_iff, !negb_true_iff, !Z.ltb_ge. lia.
Qed.

(** X1: the range [calculateFrameRange] returns always has at least one
    frame and never more than were asked for: at most [length] frames for a
    positive [length], at most the scene's own frame count otherwise. *)
Theorem calculateFrameRange_frame_count_bounds :
  forall (s e off : Z) (len : option Z) (tf : Z),
    let r := calculateFrameRange s e off len tf in
    1 <= FrameRange.frame_count r
    /\ (forall l, len = Some l -> 0 < l -> FrameRange.frame_count r <= l)
    /\ ((len = None \/ exists l, len = Some l /\ l <= 0) ->
        s <= e -> FrameRange.frame_count r <= e - s + 1).
Proof.
  intros s e off len tf r. subst r. split.
  { pose proof (calculateFrameRange_start_le_end s e off len tf).
    rewrite calculateFrameRange_frame_count. lia. }
  cbv [calculateFrameRange JS.truthyZ FrameRange.frame_count andb negb].
  split.
  - intros l -> Hl.
    destruct (Z.eqb_spec l 0); [lia|]. destruct (Z.gtb_spec l 0); [|lia].
    destruct (Z.gtb_spec (Z.max 1 (s + off)) (Z.min tf (s + off + l - 1))); lia.
  - intros [->|[l [-> Hl]]] Hse.
    + destruct (Z.gtb_spec (Z.max 1 (s + off)) (Z.min tf (e + off))); lia.
    + destruct (Z.eqb_spec l 0); destruct (Z.gtb_spec l 0); try lia;
        destruct (Z.gtb_spec (Z.max 1 (s + off)) (Z.min tf (e + off))); lia.
Qed.

Lemma calculateFrameRange_frame_count_bounds_witness :
  FrameRange.frame_count (calculateFrameRange 100 340 (-150) (Some 50) 200) <= 50
  /\ FrameRange.frame_count (calculateFrameRange 100 340 (-150) None 200)
     <= 340 - 100 + 1.
Proof.
  destruct (calculateFrameRange_frame_count_bounds 100 340 (-150) (Some 50) 200)
    as [_ [H _]].
  destruct (calculateFrameRange_frame_count_bounds 100 340 (-150) None 200)
    as [_ [_ H']].
  split; [apply (H 50 eq_refl); lia | apply H'; [left; reflexivity | lia]].
Defined.

(** X2: when the shifted window lies inside the video nothing is clamped:
    the result is exactly the window of [length] frames at start + offset,
    or, without a length, the scene shifted by the offset; in particular a
    range inside the video is returned unchanged for offset 0. *)
Theorem calculateFrameRange_exact_when_inside :
  forall (s e off tf : Z),
    1 <= s + off ->
    (forall l, 0 < l -> s + off + l - 1 <= tf ->
       calculateFrameRange s e off (Some l) tf
       = FrameRange.mk (s + off) (s + off + l - 1) l)
    /\ (s <= e -> e + off <= tf ->
        calculateFrameRange s e off None tf
        = FrameRange.mk (s + off) (e + off) (e - s + 1)).
Proof.
  intros s e off tf Hs. split.
  - intros l Hl Hfit.
    cbv [calculateFrameRange JS.truthyZ andb negb].
    destruct (Z.eqb_spec l 0); [lia|]. destruct (Z.gtb_spec l 0); [|lia].
    rewrite Z.max_r, Z.min_r by lia.
    destruct (Z.gtb_spec (s + off) (s + off + l - 1)); [lia|].
    f_equal. lia.
  - intros Hse Hfit. cbv [calculateFrameRange].
    rewrite Z.max_r, Z.min_r by lia.
    destruct (Z.gtb_spec (s + off) (e + off)); [lia|].
    f_equal. lia.
Qed.

Lemma calculateFrameRange_exact_when_inside_witness :
  calculateFrameRange 10 20 0 None 500 = FrameRange.mk 10 20 11
  /\ calculateFrameRange 10 20 5 (Some 3) 500 = FrameRange.mk 15 17 3.
Proof.
  split.
  - apply (proj2 (calculateFrameRange_exact_when_inside 10 20 0 500 ltac:(lia)));
      lia.
  - apply (proj1 (calculateFrameRange_exact_when_inside 10 20 5 500 ltac:(lia)));
      lia.
Defined.

(** X3: for a video of at least one frame, the range [calculateFrameRange]
    returns passes [validateFrameRange] exactly when the shifted start lies
    inside the video and the range has at most 1000 frames. *)
Theorem calculateFrameRange_then_validate :
  forall (s e off : Z) (len : option Z) (tf : Z),
    1 <= tf ->
    let r := calculateFrameRange s e off len tf in
    Validation.valid
      (validateFrames (FrameRange.start_frame r) (FrameRange.end_frame r) tf)
    = true
    <-> s + off <= tf /\ FrameRange.frame_count r <= 1000.
Proof.
  intros s e off len tf Htf r. rewrite validateFrames_valid_iff.
  pose proof (calculateFrameRange_start_ge_1 s e off len tf) as H1.
  pose proof (calculateFrameRange_start_le_end s e off len tf) as H2.
  pose proof (calculateFrameRange_end_le_total_iff s e off len tf Htf) as H3.
  pose proof (calculateFrameRange_frame_count s e off len tf) as H4.
  fold r in H1, H2, H3, H4. rewrite H4. intuition lia.
Qed.

Lemma calculateFrameRange_then_validate_witness :
  Validation.valid
    (validateFrames
       (FrameRange.start_frame (calculateFrameRange 100 340 (-50) None 500))
       (FrameRange.end_frame (calculateFrameRange 100 340 (-50) None 500))
       500)
  = true.
Proof.
  apply (calculateFrameRange_then_validate 100 340 (-50) None 500); vm_compute;
    [discriminate | split; discriminate].
Defined.

(** X4: [validateFrameRange] never reports "start after end" together with
    "more than 1000 frames", so it reports at most four errors; and a valid
    range has between 1 and 1000 frames. *)
Theorem validateFrameRange_exclusive_errors :
  forall s e t : Q,
    let v := validateFrameRange s e t in
    ~ (In StartAfterEnd (Validation.errors v)
       /\ In TooManyFrames (Validation.errors v))
    /\ (List.length (Validation.errors v) <= 4)%nat
    /\ (Validation.valid v = true ->
        (1 <= Validation.frameCount v)%Q
        /\ (Validation.frameCount v <= 1000)%Q).
Proof.
  intros s e t v. subst v.
  assert (Hexcl : JS.gt s e = true -> JS.gt (e - s + 1) 1000 = false).
  { rewrite gt_spec, gt_false. intros H.
    apply Qle_trans with 1%Q; [|discriminate].
    rewrite <- (Qplus_0_l 1) at 2. apply Qplus_le_compat; [|apply Qle_refl].
    apply Qlt_le_weak. rewrite Qlt_minus_iff in H.
    rewrite Qlt_minus_iff. rewrite Qplus_0_l.
    setoid_replace (- (e - s))%Q with (s + - e)%Q by (unfold Qminus; ring).
    exact H. }
  split; [|split].
  - rewrite validateFrameRange_errors. intros [H1 H2].
    destruct (JS.gt s e) eqn:E3.
    + rewrite (Hexcl eq_refl) in H2.
      repeat (apply in_app_or in H2; destruct H2 as [H2|H2]);
        repeat match type of H2 with
          | In _ (if ?c then _ else _) => destruct c
          end; simpl in H2; intuition discriminate.
    + repeat (apply in_app_or in H1; destruct H1 as [H1|H1]);
        repeat match type of H1 with
          | In _ (if ?c then _ else _) => destruct c
          end; simpl in H1; intuition discriminate.
  - rewrite validateFrameRange_errors.
    destruct (JS.gt s e) eqn:E3; [rewrite (Hexcl eq_refl)|];
      repeat match goal with
        | |- context [if ?c then _ else _] => destruct c
        end; simpl; lia.
  - rewrite validateFrameRange_valid, !andb_true_iff, !negb_true_iff.
    intros [[[[_ _] H3] _] H5]. cbn [validateFrameRange Validation.frameCount].
    apply gt_false in H3, H5. split; [|exact H5].
    rewrite <- (Qplus_0_l 1) at 1. apply Qplus_le_compat; [|apply Qle_refl].
    rewrite Qle_minus_iff in H3. exact H3.
Qed.

Lemma validateFrameRange_exclusive_errors_witness :
  (1 <= Validation.frameCount (validateFrameRange 50 290 500))%Q
  /\ (Validation.frameCount (validateFrameRange 50 290 500) <= 1000)%Q.
Proof.
  apply (proj2 (proj2 (validateFrameRange_exclusive_errors 50 290 500))).
  reflexivity.
Defined.

(** ** [detectScenesFFmpeg]: the scenes it pushes *)

(** What the handlers keep for the scenes closed at a boundary. *)
Lemma place_boundary_closed (P : RawScene.t -> Prop) threshold minSceneLength fps
  (I : Detector.t -> Prop) :
  (forall st f,
      I st ->
      minSceneLength <= frameNum fps f - Detector.lastSceneFrame st ->
      I (close_scene fps st f)
      /\ P {| RawScene.start_frame := Detector.lastSceneFrame st;
              RawScene.end_frame := frameNum fps f;
              RawScene.start_time :=
                (inject_Z (Detector.lastSceneFrame st - 1) / fps)%Q;
              RawScene.end_time := Frame.pts_time f |}) ->
  forall frames st,
    I st -> Forall P (Detector.scenes st) ->
    I (fold_left (place_boundary threshold minSceneLength fps) frames st)
    /\ Forall P (Detector.scenes
                   (fold_left (place_boundary threshold minSceneLength fps)
                      frames st)).
Proof.
  intros Hstep. induction frames as [|f frames IH]; intros st HI HP.
  - split; assumption.
  - cbn [fold_left]. unfold place_boundary at 2 4.
    destruct (JS.gt (Frame.scene f) threshold); cbn [andb];
      [|apply IH; assumption].
    destruct (Z.leb_spec minSceneLength
                (frameNum fps f - Detector.lastSceneFrame st)) as [Hd|Hd];
      [|apply IH; assumption].
    destruct (Hstep st f HI Hd) as [HI' HP'].
    apply IH; [exact HI'|].
    unfold close_scene. cbn [Detector.scenes].
    apply Forall_app. split; [exact HP | constructor; [exact HP' | constructor]].
Qed.

(** The result of [detectScenesFFmpeg] is the scenes closed at boundaries
    followed by at most one final scene. *)
Lemma detectScenesFFmpeg_run w threshold minSceneLength fps info frames :
  getVideoInfo w = Ok info ->
  World.ffmpeg w = Some frames ->
  detectScenesFFmpeg w threshold minSceneLength fps
  = Ok (onEnd minSceneLength fps info
          (fold_left (place_boundary threshold minSceneLength fps) frames
             Detector.init)).
Proof.
  intros Hprobe Hff. unfold detectScenesFFmpeg. rewrite Hff, Hprobe.
  cbn [bind]. rewrite onStderr_place_boundary. reflexivity.
Qed.

Lemma onEnd_split minSceneLength fps info st :
  exists tail,
    onEnd minSceneLength fps info st = Detector.scenes st ++ tail
    /\ (tail = [] /\ Detector.scenes st <> []
        \/ exists t, tail = [t]
             /\ RawScene.start_frame t = Detector.lastSceneFrame st
             /\ RawScene.end_frame t = VideoInfo.total_frames info
             /\ RawScene.end_time t = VideoInfo.duration info
             /\ (minSceneLength <= 2 * scene_span t
                 \/ Detector.scenes st = [])).
Proof.
  unfold onEnd.
  destruct (JS.ge _ _) eqn:Ege; cbn [orb].
  - eexists. split; [reflexivity|]. right. eexists. split; [reflexivity|].
    cbn. apply half_le in Ege. repeat split. left. exact Ege.
  - destruct (Detector.scenes st) as [|r rs] eqn:Esc; cbn [List.length Nat.eqb].
    + eexists. split; [reflexivity|]. right. eexists. split; [reflexivity|].
      cbn. repeat split. right. reflexivity.
    + exists []. rewrite app_nil_r. split; [reflexivity|]. left.
      split; [reflexivity | discriminate].
Qed.

(** X5: every scene [detectScenesFFmpeg] closes at a boundary spans at least
    [minSceneLength] frames (end_frame - start_frame >= minSceneLength); the
    result is these scenes followed by at most one final scene, which ends at
    total_frames and spans at least half of [minSceneLength] unless it is the
    only scene. *)
Theorem detectScenesFFmpeg_min_span :
  forall (w : World.t) (threshold : Q) (minSceneLength : Z) (fps : Q)
         (info : VideoInfo.t) (frames : list Frame.t),
    getVideoInfo w = Ok info ->
    World.ffmpeg w = Some frames ->
    exists closed tail : list RawScene.t,
      detectScenesFFmpeg w threshold minSceneLength fps = Ok (closed ++ tail)
      /\ Forall (fun r => minSceneLength <= scene_span r) closed
      /\ (tail = [] /\ closed <> []
          \/ exists t, tail = [t]
               /\ RawScene.end_frame t = VideoInfo.total_frames info
               /\ (minSceneLength <= 2 * scene_span t \/ closed = [])).
Proof.
  intros w threshold minF fps info frames Hprobe Hff.
  rewrite (detectScenesFFmpeg_run w threshold minF fps info frames Hprobe Hff).
  set (st := fold_left (place_boundary threshold minF fps) frames Detector.init).
  destruct (onEnd_split minF fps info st) as [tail [E Htail]].
  exists (Detector.scenes st), tail. split; [rewrite E; reflexivity|]. split.
  - apply (place_boundary_closed (fun r => minF <= scene_span r)
             threshold minF fps (fun _ => True)); [| exact I | constructor].
    intros st0 f _ Hd. split; [exact I|]. unfold scene_span. simpl. exact Hd.
  - destruct Htail as [H|[t [H1 [_ [H2 [_ H3]]]]]]; [left; exact H|].
    right. exists t. repeat split; assumption.
Qed.

Lemma detectScenesFFmpeg_min_span_witness :
  exists closed tail : list RawScene.t,
    detectScenesFFmpeg two_cut_world FFMPEG_THRESHOLD 30 30 = Ok (closed ++ tail)
    /\ Forall (fun r => 30 <= scene_span r) closed.
Proof.
  destruct (detectScenesFFmpeg_min_span two_cut_world FFMPEG_THRESHOLD 30 30
              _ _ eq_refl eq_refl) as [closed [tail [H1 [H2 _]]]].
  exists closed, tail. split; assumption.
Defined.




Lemma place_boundary_count threshold minSceneLength fps frames st :
  (List.length
     (Detector.scenes
        (fold_left (place_boundary threshold minSceneLength fps) frames st))
   <= List.length (Detector.scenes st)
      + List.length (filter (select_gt_scene threshold) frames))%nat.
Proof.
  revert st. induction frames as [|f frames IH]; intros st; [simpl; lia|].
  cbn [fold_left filter]. unfold place_boundary at 2.
  change (JS.gt (Frame.scene f) threshold) with (select_gt_scene threshold f).
  destruct (select_gt_scene threshold f); cbn [andb].
  - destruct (minSceneLength <=? _).
    + etransitivity; [apply IH|]. unfold close_scene. cbn [Detector.scenes].
      rewrite length_app. simpl. lia.
    + etransitivity; [apply IH|]. simpl. lia.
  - apply IH.
Qed.

(** X7: [detectScenesFFmpeg] returns at most one scene more than there are
    analysed frames whose scene score exceeds the threshold, and never an
    empty list. *)
Theorem detectScenesFFmpeg_scene_count :
  forall (w : World.t) (threshold : Q) (minSceneLength : Z) (fps : Q)
         (info : VideoInfo.t) (frames : list Frame.t),
    getVideoInfo w = Ok info ->
    World.ffmpeg w = Some frames ->
    exists scenes : list RawScene.t,
      detectScenesFFmpeg w threshold minSceneLength fps = Ok scenes
      /\ (1 <= List.length scenes)%nat
      /\ (List.length scenes
          <= List.length (filter (select_gt_scene threshold) frames) + 1)%nat.
Proof.
  intros w threshold minF fps info frames Hprobe Hff.
  rewrite (detectScenesFFmpeg_run w threshold minF fps info frames Hprobe Hff).
  set (st := fold_left (place_boundary threshold minF fps) frames Detector.init).
  eexists. split; [reflexivity|].
  pose proof (place_boundary_count threshold minF fps frames Detector.init) as Hc.
  fold st in Hc. cbn [Detector.init Detector.scenes List.length] in Hc.
  destruct (onEnd_split minF fps info st) as [tail [E Htail]]. rewrite E.
  rewrite length_app.
  destruct Htail as [[-> Hne]|[t [-> _]]]; simpl.
  - destruct (Detector.scenes st); [contradiction|]. simpl in *. lia.
  - lia.
Qed.

Lemma detectScenesFFmpeg_scene_count_witness :
  exists scenes : list RawScene.t,
    detectScenesFFmpeg two_cut_world FFMPEG_THRESHOLD 30 30 = Ok scenes
    /\ (1 <= List.length scenes)%nat.
Proof.
  destruct (detectScenesFFmpeg_scene_count two_cut_world FFMPEG_THRESHOLD 30 30
              _ _ eq_refl eq_refl) as [scenes [H1 [H2 _]]].
  exists scenes. split; assumption.
Defined.

(** ** [detectScenes]: edge cases, errors and numbering *)

Lemma fold_place_boundary_no_cut threshold minSceneLength fps frames st :
  Forall (fun f => (Frame.scene f <= threshold)%Q) frames ->
  fold_left (place_boundary threshold minSceneLength fps) frames st = st.
Proof.
  intros H. revert st. induction H as [|f frames Hf _ IH]; intros st;
    [reflexivity|].
  cbn [fold_left]. unfold place_boundary at 2.
  apply gt_false in Hf. rewrite Hf. cbn [andb]. apply IH.
Qed.

Lemma Math_round_compat (x y : Q) :
  x == y -> JS.Math_round x = JS.Math_round y.
Proof. intros E. unfold JS.Math_round. rewrite E. reflexivity. Qed.

(** X8: when the primary detector fails and no analysed frame has a scene
    score above 0.3 (in particular when there are no frames), [detectScenes]
    returns exactly one scene, numbered 1, from frame 1 to total_frames,
    starting at time 0 and ending no later than the duration; for a video of
    zero frames this single scene is the inverted range 1..0. *)
Theorem detectScenes_without_cuts :
  forall (w : World.t) (options : Options.t) (info : VideoInfo.t)
         (frames : list Frame.t),
    getVideoInfo w = Ok info ->
    PrimaryFailure (primary_run w options info) ->
    World.ffmpeg w = Some frames ->
    Forall (fun f => (Frame.scene f <= FFMPEG_THRESHOLD)%Q) frames ->
    exists s : Scene.t,
      detectScenes w options = Ok [s]
      /\ Scene.scene_number s = 1
      /\ Scene.start_frame s = 1
      /\ Scene.end_frame s = VideoInfo.total_frames info
      /\ Scene.start_time s == 0
      /\ (Scene.end_time s <= VideoInfo.duration info)%Q
      /\ (VideoInfo.total_frames info = 0 ->
          Scene.end_frame s < Scene.start_frame s).
Proof.
  intros w options info frames Hprobe Hfail Hff Hquiet.
  rewrite (detectScenes_on_primary_failure w options info Hprobe Hfail).
  rewrite (fallbackDetectScenes_run w _ _ info frames Hprobe Hff).
  rewrite fold_place_boundary_no_cut by exact Hquiet.
  unfold onEnd. cbn [Detector.init Detector.scenes Detector.lastSceneFrame
                     List.length Nat.eqb app map_index].
  rewrite orb_true_r. cbn [app map_index].
  eexists. split; [reflexivity|].
  cbn [cleanScene Scene.scene_number Scene.start_frame Scene.end_frame
       Scene.start_time Scene.end_time RawScene.start_frame
       RawScene.end_frame RawScene.start_time RawScene.end_time].
  rewrite !Math_round_Z.
  split; [reflexivity|]. split; [reflexivity|]. split; [lia|]. split.
  - unfold JS.Math_max.
    assert (E : (inject_Z (1 - 1) / effective_fps options info == 0 # 1000)%Q).
    { unfold Qdiv. change (inject_Z (1 - 1)) with 0%Q. rewrite Qmult_0_l.
      reflexivity. }
    assert (E' : JS.toFixed3 (inject_Z (1 - 1) / effective_fps options info)
                 == 0).
    { rewrite toFixed3_whole_ms; [rewrite E; reflexivity | exists 0; exact E]. }
    rewrite E'. reflexivity.
  - split; [apply Q.le_min_l | lia].
Qed.

Lemma detectScenes_without_cuts_witness :
  exists s : Scene.t,
    detectScenes (sample_world 10 []) Options.empty = Ok [s]
    /\ Scene.start_frame s = 1
    /\ Scene.end_frame s = 300.
Proof.
  destruct (detectScenes_without_cuts (sample_world 10 []) Options.empty _ []
              eq_refl SpawnFailure eq_refl (Forall_nil _))
    as [s [H1 [_ [H2 [H3 _]]]]].
  exists s. split; [exact H1 | split; [exact H2 | exact H3]].
Defined.

(** X9: [detectScenes] rejects exactly in two situations: the first probe of
    the video fails (with the probe's error), or the primary detector fails
    and ffmpeg fails as well ('Scene detection failed').  In every other case
    it resolves. *)
Theorem detectScenes_rejects_iff :
  forall (w : World.t) (options : Options.t) (e : Error),
    detectScenes w options = Rejected e
    <-> getVideoInfo w = Rejected e
        \/ exists info : VideoInfo.t,
            getVideoInfo w = Ok info
            /\ PrimaryFailure (primary_run w options info)
            /\ World.ffmpeg w = None
            /\ e = SceneDetectionFailed.
Proof.
  intros w options e.
  destruct (getVideoInfo w) as [info|e0] eqn:Hprobe.
  - destruct (primary_run_cases (primary_run w options info)) as [Hf|[sc E]].
    + rewrite (detectScenes_on_primary_failure w options info Hprobe Hf).
      unfold fallbackDetectScenes, detectScenesFFmpeg.
      destruct (World.ffmpeg w) as [frames|] eqn:Hff.
      * rewrite Hprobe. cbn [bind]. split; [discriminate|].
        intros [H|[info' [_ [_ [H _]]]]]; discriminate.
      * cbn [bind]. split.
        -- intros [= <-]. right. exists info. repeat split. exact Hf.
        -- intros [H|[info' [_ [_ [_ ->]]]]]; [discriminate | reflexivity].
    + rewrite (detectScenes_after_probe w options info Hprobe), E.
      split; [discriminate|].
      intros [H|[info' [H [Hf _]]]]; [discriminate|].
      injection H as <-. rewrite E in Hf. inversion Hf. congruence.
  - unfold detectScenes. rewrite Hprobe. cbn [bind]. split.
    + intros [= <-]. left. reflexivity.
    + intros [[= <-]|[info' [H _]]]; [reflexivity | discriminate].
Qed.

(** X10: on the fallback path the scenes are numbered by position, starting
    at 1, and there are as many of them as [detectScenesFFmpeg] returned. *)
Theorem fallback_scene_numbers :
  forall (w : World.t) (options : Options.t) (info : VideoInfo.t)
         (scenes : list Scene.t),
    getVideoInfo w = Ok info ->
    PrimaryFailure (primary_run w options info) ->
    detectScenes w options = Ok scenes ->
    forall (i : nat) (s : Scene.t),
      nth_error scenes i = Some s ->
      Scene.scene_number s = Z.of_nat i + 1.
Proof.
  intros w options info scenes Hprobe Hfail Hok i s Hi.
  destruct (detectScenes_fallback_inv w options info scenes Hprobe Hfail Hok)
    as [raws [_ ->]].
  rewrite nth_error_map_index in Hi.
  destruct (nth_error raws i); [|discriminate].
  cbn [option_map] in Hi. injection Hi as <-. reflexivity.
Qed.

Lemma fallback_scene_numbers_witness :
  exists (scenes : list Scene.t) (s : Scene.t),
    detectScenes two_cut_world Options.empty = Ok scenes
    /\ nth_error scenes 1 = Some s
    /\ Scene.scene_number s = 2.
Proof.
  eexists. eexists. split; [reflexivity|]. split; [reflexivity|].
  exact (fallback_scene_numbers two_cut_world Options.empty _ _
           eq_refl SpawnFailure eq_refl 1%nat _ eq_refl).
Defined.

(** ** [getVideoInfo] *)

(** X11: when [getVideoInfo] resolves, the frame rate is never 0 (a missing
    or zero [r_frame_rate] gives 30), total_frames is
    round(duration * fps), a missing or zero duration gives 0 frames, and
    total_frames is not negative for a non-negative duration and a positive
    frame rate. *)
Theorem getVideoInfo_resolved :
  forall (w : World.t) (info : VideoInfo.t),
    getVideoInfo w = Ok info ->
    exists m : Metadata.t,
      World.ffprobe w = FfprobeVideo m
      /\ ~ VideoInfo.fps info == 0
      /\ VideoInfo.total_frames info
         = JS.Math_round (VideoInfo.duration info * VideoInfo.fps info)
      /\ (JS.truthy (Metadata.r_frame_rate m) = false ->
          VideoInfo.fps info = 30%Q)
      /\ (JS.truthy (Metadata.format_duration m) = false ->
          VideoInfo.total_frames info = 0)
      /\ ((0 <= VideoInfo.duration info)%Q -> (0 < VideoInfo.fps info)%Q ->
          0 <= VideoInfo.total_frames info).
Proof.
  intros w info H. pose proof (getVideoInfo_fps_nonzero w info H) as Hfps.
  unfold getVideoInfo in H. destruct (World.ffprobe w) as [| |m]; try discriminate.
  injection H as <-. exists m. cbn [VideoInfo.fps VideoInfo.total_frames
                                   VideoInfo.duration] in *.
  split; [reflexivity|]. split; [exact Hfps|]. split; [reflexivity|].
  split; [apply or_truthy|]. split.
  - intros Hd. rewrite (or_truthy _ _ Hd).
    assert (E : (0 * JS.or (Metadata.r_frame_rate m) 30 == inject_Z 0)%Q)
      by apply Qmult_0_l.
    rewrite (Math_round_compat _ _ E). apply Math_round_Z.
  - intros Hd Hf. apply Math_round_nonneg. apply Qmult_le_0_compat;
      [exact Hd | apply Qlt_le_weak; exact Hf].
Qed.

Lemma getVideoInfo_resolved_witness :
  exists info : VideoInfo.t,
    getVideoInfo two_cut_world = Ok info
    /\ ~ VideoInfo.fps info == 0
    /\ VideoInfo.total_frames info
       = JS.Math_round (VideoInfo.duration info * VideoInfo.fps info).
Proof.
  eexists. split; [reflexivity|].
  destruct (getVideoInfo_resolved two_cut_world _ eq_refl)
    as [m [_ [H1 [H2 _]]]].
  split; [exact H1 | exact H2].
Defined.

(** ** [detectScenesFrameBased] *)






(** ** [POST /extract] *)

Lemma extractRoute_proceed_inv w files body seg :
  extractRoute w files body = Proceed seg ->
  exists (info : VideoInfo.t) (s0 e0 : Z),
    Files.isPathSafe files = true
    /\ Files.fileExists files = true
    /\ getVideoInfo w = Ok info
    /\ parse (ExtractBody.start_frame body) = Some s0
    /\ parse (ExtractBody.end_frame body) = Some e0
    /\ Validation.valid
         (validateFrames (extractStart body s0) (extractEnd body s0 e0)
            (VideoInfo.total_frames info)) = true
    /\ seg = {| Segment.startFrame := extractStart body s0;
                Segment.endFrame := extractEnd body s0 e0;
                Segment.startTime :=
                  (inject_Z (extractStart body s0 - 1)
                   / JS.or (ExtractBody.fps body) (VideoInfo.fps info))%Q;
                Segment.duration :=
                  (inject_Z (extractEnd body s0 e0 - extractStart body s0 + 1)
                   / JS.or (ExtractBody.fps body) (VideoInfo.fps info))%Q |}.
Proof.
  unfold extractRoute.
  destruct (ExtractBody.filepath body); cbn [negb]; [|discriminate].
  destruct (is_undefined _ || is_undefined _); [discriminate|].
  destruct (Files.isPathSafe files); cbn [negb]; [|discriminate].
  destruct (Files.fileExists files); cbn [negb]; [|discriminate].
  destruct (getVideoInfo w) as [info|e]; [|discriminate].
  destruct (parse (ExtractBody.start_frame body)) as [s0|]; [|discriminate].
  destruct (parse (ExtractBody.end_frame body)) as [e0|]; [|discriminate].
  fold (extractStart body s0).
  assert (E : match ExtractBody.extract_frames body with
              | Given extractLength =>
                  match extractLength with
                  | Some l =>
                      if l >? 0 then extractStart body s0 + l - 1 else e0
                  | None => e0
                  end
              | _ => extractStart body s0 + (e0 - s0)
              end = extractEnd body s0 e0).
  { unfold extractEnd. destruct (ExtractBody.extract_frames body) as [| |[l|]];
      reflexivity. }
  rewrite E. fold (validateFrames (extractStart body s0) (extractEnd body s0 e0)
                     (VideoInfo.total_frames info)).
  destruct (Validation.valid _) eqn:Ev; cbn [negb]; [|discriminate].
  intros [= <-]. exists info, s0, e0. repeat split. exact Ev.
Qed.

(** X14: whenever [POST /extract] goes on to call [extractSegment], the path
    was accepted, the file exists, the video was probed, and the range it
    extracts lies within the video: 1 <= startFrame <= endFrame <=
    total_frames, with at most 1000 frames. *)
Theorem extractRoute_within_video :
  forall (w : World.t) (files : Files.t) (body : ExtractBody.t)
         (seg : Segment.t),
    extractRoute w files body = Proceed seg ->
    exists info : VideoInfo.t,
      getVideoInfo w = Ok info
      /\ Files.isPathSafe files = true
      /\ Files.fileExists files = true
      /\ 1 <= Segment.startFrame seg
      /\ Segment.startFrame seg <= Segment.endFrame seg
      /\ Segment.endFrame seg <= VideoInfo.total_frames info
      /\ Segment.endFrame seg - Segment.startFrame seg + 1 <= 1000.
Proof.
  intros w files body seg H.
  destruct (extractRoute_proceed_inv w files body seg H)
    as [info [s0 [e0 [H1 [H2 [H3 [_ [_ [Hv ->]]]]]]]]].
  apply validateFrames_valid_iff in Hv. exists info.
  cbn [Segment.startFrame Segment.endFrame]. intuition.
Qed.

Lemma extractRoute_within_video_witness :
  exists (seg : Segment.t) (info : VideoInfo.t),
    extractRoute mild_cut_world all_files sample_extract = Proceed seg
    /\ getVideoInfo mild_cut_world = Ok info
    /\ 1 <= Segment.startFrame seg
    /\ Segment.endFrame seg <= VideoInfo.total_frames info.
Proof.
  eexists.
  destruct (extractRoute_within_video mild_cut_world all_files sample_extract
              _ eq_refl) as [info [H1 [_ [_ [H2 [_ [H3 _]]]]]]].
  exists info. split; [reflexivity|]. split; [exact H1|].
  split; [exact H2 | exact H3].
Defined.




(** X16: when [POST /extract] goes on to extract and [extract_frames] is
    absent, null or a positive integer, the range it extracts is the one
    [calculateFrameRange] computes from the same scene, offset and length
    (nothing was clamped).  When [extract_frames] is given but is not a
    positive integer, the offset moves only the start: the range runs from
    start_frame + offset to the unshifted end_frame. *)
Theorem extractRoute_agrees_with_calculateFrameRange :
  forall (w : World.t) (files : Files.t) (body : ExtractBody.t)
         (seg : Segment.t) (s0 e0 : Z),
    extractRoute w files body = Proceed seg ->
    parse (ExtractBody.start_frame body) = Some s0 ->
    parse (ExtractBody.end_frame body) = Some e0 ->
    exists info : VideoInfo.t,
      getVideoInfo w = Ok info
      /\ Segment.startFrame seg = s0 + extractOffset body
      /\ match ExtractBody.extract_frames body with
         | Given (Some l) =>
             if l >? 0 then
               calculateFrameRange s0 e0 (extractOffset body) (Some l)
                 (VideoInfo.total_frames info)
               = FrameRange.mk (Segment.startFrame seg) (Segment.endFrame seg) l
             else Segment.endFrame seg = e0
         | Given None => Segment.endFrame seg = e0
         | Undefined | Null =>
             calculateFrameRange s0 e0 (extractOffset body) None
               (VideoInfo.total_frames info)
             = FrameRange.mk (Segment.startFrame seg) (Segment.endFrame seg)
                 (e0 - s0 + 1)
         end.
Proof.
  intros w files body seg s0 e0 H Hs He.
  destruct (extractRoute_proceed_inv w files body seg H)
    as [info [s0' [e0' [_ [_ [Hprobe [Hs' [He' [Hv ->]]]]]]]]].
  rewrite Hs in Hs'. rewrite He in He'.
  injection Hs' as <-. injection He' as <-.
  apply validateFrames_valid_iff in Hv. exists info.
  split; [exact Hprobe|].
  cbn [Segment.startFrame Segment.endFrame].
  assert (Est : extractStart body s0 = s0 + extractOffset body).
  { unfold extractStart, extractOffset.
    destruct (parse (ExtractBody.start_offset body)); lia. }
  split; [exact Est|].
  unfold extractEnd in *. rewrite Est in *.
  set (off := extractOffset body) in *.
  destruct (ExtractBody.extract_frames body) as [| |[l|]].
  - cbv [calculateFrameRange]. rewrite Z.max_r, Z.min_r by lia.
    destruct (Z.gtb_spec (s0 + off) (e0 + off)); [lia|]. f_equal; lia.
  - cbv [calculateFrameRange]. rewrite Z.max_r, Z.min_r by lia.
    destruct (Z.gtb_spec (s0 + off) (e0 + off)); [lia|]. f_equal; lia.
  - destruct (Z.gtb_spec l 0) as [Hl|Hl]; [|reflexivity].
    cbv [calculateFrameRange JS.truthyZ andb negb].
    destruct (Z.eqb_spec l 0); [lia|]. destruct (Z.gtb_spec l 0); [|lia].
    rewrite Z.max_r, Z.min_r by lia.
    destruct (Z.gtb_spec (s0 + off) (s0 + off + l - 1)); [lia|]. f_equal; lia.
  - reflexivity.
Qed.

Lemma extractRoute_agrees_with_calculateFrameRange_witness :
  exists seg : Segment.t,
    extractRoute mild_cut_world all_files sample_extract = Proceed seg
    /\ calculateFrameRange 100 240 (-50) None 300
       = FrameRange.mk (Segment.startFrame seg) (Segment.endFrame seg)
           (240 - 100 + 1).
Proof.
  eexists. split; [reflexivity|].
  destruct (extractRoute_agrees_with_calculateFrameRange mild_cut_world
              all_files sample_extract _ 100 240 eq_refl eq_refl eq_refl)
    as [info [H1 [_ H2]]].
  injection H1 as <-. exact H2.
Defined.

(** X17: [POST /extract] never clamps: with an accepted path and parsed
    frame numbers, a start that the offset moves before frame 1 is answered
    with status 400 and the "start frame must be a positive integer" entry,
    and an end beyond total_frames with status 400 and the "end frame cannot
    exceed total frames" entry. *)
Theorem extractRoute_rejects_outside_video :
  forall (w : World.t) (files : Files.t) (body : ExtractBody.t)
         (info : VideoInfo.t) (s0 e0 : Z),
    ExtractBody.filepath body = true ->
    Files.isPathSafe files = true ->
    Files.fileExists files = true ->
    getVideoInfo w = Ok info ->
    ExtractBody.start_frame body = Given (Some s0) ->
    ExtractBody.end_frame body = Given (Some e0) ->
    (extractStart body s0 < 1 ->
     exists errors,
       extractRoute w files body = Status400Range errors
       /\ In StartNotPositiveInteger errors)
    /\ (VideoInfo.total_frames info < extractEnd body s0 e0 ->
        exists errors,
          extractRoute w files body = Status400Range errors
          /\ In (EndExceedsTotal (inject_Z (VideoInfo.total_frames info)))
                errors).
Proof.
  intros w files body info s0 e0 Hfp Hsafe Hex Hprobe Hs He.
  assert (E : forall b,
             Validation.valid
               (validateFrames (extractStart body s0) (extractEnd body s0 e0)
                  (VideoInfo.total_frames info)) = b ->
             extractRoute w files body
             = if negb b
               then Status400Range
                      (Validation.errors
                         (validateFrames (extractStart body s0)
                            (extractEnd body s0 e0)
                            (VideoInfo.total_frames info)))
               else Proceed
                      {| Segment.startFrame := extractStart body s0;
                         Segment.endFrame := extractEnd body s0 e0;
                         Segment.startTime :=
                           (inject_Z (extractStart body s0 - 1)
                            / JS.or (ExtractBody.fps body)
                                    (VideoInfo.fps info))%Q;
                         Segment.duration :=
                           (inject_Z (extractEnd body s0 e0
                                      - extractStart body s0 + 1)
                            / JS.or (ExtractBody.fps body)
                                    (VideoInfo.fps info))%Q |}).
  { intros b Hb. unfold extractRoute.
    rewrite Hfp, Hs, He, Hsafe, Hex, Hprobe.
    cbn [negb is_undefined orb parse]. fold (extractStart body s0).
    unfold validateFrames, extractEnd in *.
    destruct (ExtractBody.extract_frames body) as [| |[l|]];
      rewrite Hb; reflexivity. }
  split; intros Hout.
  - rewrite (E false).
    + eexists. split; [reflexivity|]. unfold validateFrames.
      rewrite validateFrameRange_errors, Number_isInteger_inject.
      change 1%Q with (inject_Z 1). rewrite lt_inject.
      destruct (Z.ltb_spec (extractStart body s0) 1); [|lia].
      cbn [negb orb]. left. reflexivity.
    + destruct (Validation.valid _) eqn:Ev; [|reflexivity].
      apply validateFrames_valid_iff in Ev. lia.
  - rewrite (E false).
    + eexists. split; [reflexivity|]. unfold validateFrames.
      rewrite validateFrameRange_errors, (gt_inject (extractEnd body s0 e0)).
      destruct (Z.ltb_spec (VideoInfo.total_frames info) (extractEnd body s0 e0));
        [|lia].
      apply in_or_app. right. apply in_or_app. right. apply in_or_app. right.
      apply in_or_app. left. left. reflexivity.
    + destruct (Validation.valid _) eqn:Ev; [|reflexivity].
      apply validateFrames_valid_iff in Ev. lia.
Qed.

Lemma extractRoute_rejects_outside_video_witness :
  exists errors,
    extractRoute late_cut_world all_files sample_extract
    = Status400Range errors
    /\ In (EndExceedsTotal 100) errors.
Proof.
  apply (proj2 (extractRoute_rejects_outside_video late_cut_world all_files
                  sample_extract _ 100 240 eq_refl eq_refl eq_refl eq_refl
                  eq_refl eq_refl)).
  vm_compute. reflexivity.
Defined.

(** ** [POST /detect-scenes], [POST /upload] and [/preview] *)

Lemma out_of_range_false (x : option Q) (lo hi : Q) :
  out_of_range x lo hi = false ->
  exists v, x = Some v /\ (lo <= v)%Q /\ (v <= hi)%Q.
Proof.
  destruct x as [v|]; [|discriminate]. cbn [out_of_range].
  rewrite orb_false_iff, lt_false, gt_false. intros [H1 H2].
  exists v. repeat split; assumption.
Qed.

(** X18: when [POST /detect-scenes] goes on to call [detectScenes], the
    detection runs at the probed frame rate; a given [min_scene_length] v
    lies in [0.1, 300] and is used as seconds clamped to [0.5, 60] (never
    replaced by the default, never divided by fps), an absent one gives the
    default 1.0; a given [threshold] lies in [1, 100] and is passed
    unchanged, an absent one gives the default 20. *)
Theorem scenesOptions_accepted :
  forall (w : World.t) (files : Files.t) (body : ScenesBody.t)
         (options : Options.t),
    scenesOptions w files body = Proceed options ->
    exists info : VideoInfo.t,
      getVideoInfo w = Ok info
      /\ effective_fps options info = VideoInfo.fps info
      /\ match ScenesBody.min_scene_length body with
         | Undefined =>
             effective_minSceneLength options info = DEFAULT_MIN_SCENE_LENGTH
         | _ =>
             exists v : Q,
               parse (ScenesBody.min_scene_length body) = Some v
               /\ (1 # 10 <= v)%Q /\ (v <= 300)%Q
               /\ effective_minSceneLength options info = clamp (1 # 2) 60 v
         end
      /\ match ScenesBody.threshold body with
         | Undefined => effective_threshold options = DEFAULT_THRESHOLD
         | _ =>
             exists t : Q,
               parse (ScenesBody.threshold body) = Some t
               /\ (1 <= t)%Q /\ (t <= 100)%Q
               /\ effective_threshold options = t
         end.
Proof.
  intros w files body options. unfold scenesOptions.
  destruct (ScenesBody.filepath body); cbn [negb]; [|discriminate].
  destruct (Files.isPathSafe files); cbn [negb]; [|discriminate].
  destruct (Files.fileExists files); cbn [negb]; [|discriminate].
  destruct (getVideoInfo w) as [info|e]; [|discriminate].
  destruct (negb (is_undefined (ScenesBody.min_scene_length body))
            && out_of_range (parse (ScenesBody.min_scene_length body))
                 (1 # 10) 300) eqn:Em; [discriminate|].
  destruct (negb (is_undefined (ScenesBody.threshold body))
            && out_of_range (parse (ScenesBody.threshold body)) 1 100) eqn:Et;
    [discriminate|].
  intros [= <-]. exists info. split; [reflexivity|].
  unfold effective_fps, effective_minSceneLength, effective_threshold.
  cbn [Options.fps Options.minSceneLength Options.threshold].
  split; [|split].
  - unfold JS.or. destruct (JS.truthy _); reflexivity.
  - assert (Hgiven :
      out_of_range (parse (ScenesBody.min_scene_length body)) (1 # 10) 300
      = false ->
      exists v : Q,
        parse (ScenesBody.min_scene_length body) = Some v
        /\ (1 # 10 <= v)%Q /\ (v <= 300)%Q
        /\ normalizeMinSceneLength (parse (ScenesBody.min_scene_length body))
             (JS.or (Some (VideoInfo.fps info)) (VideoInfo.fps info))
           = clamp (1 # 2) 60 v).
    { intros Ho. destruct (out_of_range_false _ _ _ Ho) as [v [Ev [Hlo Hhi]]].
      exists v. rewrite Ev. repeat split; try assumption.
      unfold normalizeMinSceneLength.
      rewrite or_Some_nonzero by (intros H0; rewrite H0 in Hlo; lra).
      apply gt_false in Hhi. rewrite Hhi. reflexivity. }
    destruct (ScenesBody.min_scene_length body) as [| |x];
      cbn [is_undefined negb andb] in Em;
      [reflexivity | apply Hgiven; exact Em | apply Hgiven; exact Em].
  - assert (Hgiven :
      out_of_range (parse (ScenesBody.threshold body)) 1 100 = false ->
      exists t : Q,
        parse (ScenesBody.threshold body) = Some t
        /\ (1 <= t)%Q /\ (t <= 100)%Q
        /\ JS.or (parse (ScenesBody.threshold body)) DEFAULT_THRESHOLD = t).
    { intros Ho. destruct (out_of_range_false _ _ _ Ho) as [t [Ev [Hlo Hhi]]].
      exists t. rewrite Ev. repeat split; try assumption.
      apply or_Some_nonzero. intros H0. rewrite H0 in Hlo. lra. }
    destruct (ScenesBody.threshold body) as [| |x];
      cbn [is_undefined negb andb] in Et;
      [reflexivity | apply Hgiven; exact Et | apply Hgiven; exact Et].
Qed.

Lemma scenesOptions_accepted_witness :
  exists options : Options.t,
    scenesOptions mild_cut_world all_files sample_redetect = Proceed options
    /\ exists (info : VideoInfo.t) (v : Q),
        getVideoInfo mild_cut_world = Ok info
        /\ effective_minSceneLength options info = clamp (1 # 2) 60 v.
Proof.
  eexists. split; [reflexivity|].
  destruct (scenesOptions_accepted mild_cut_world all_files sample_redetect
              _ eq_refl) as [info [H1 [_ [[v [_ [_ [_ H2]]]] _]]]].
  exists info, v. split; assumption.
Defined.




(** X20: an upload is accepted only with a target frame rate of 16, 24, 25
    or 30, a missing, unparseable or zero [target_fps] counting as 24; its
    scene detection then runs at that frame rate with the default minimum
    length, which is one second, that is [targetFps] frames for the fallback
    detector. *)
Theorem uploadTargetFps_accepted :
  forall (target_fps : option Z) (targetFps : Z),
    uploadTargetFps target_fps = Some targetFps ->
    In targetFps validFps
    /\ (JS.truthyZ target_fps = false -> targetFps = 24)
    /\ forall info : VideoInfo.t,
        effective_fps (uploadOptions targetFps) info = inject_Z targetFps
        /\ effective_minSceneLength (uploadOptions targetFps) info
           = DEFAULT_MIN_SCENE_LENGTH
        /\ JS.Math_round
             (effective_minSceneLength (uploadOptions targetFps) info
              * effective_fps (uploadOptions targetFps) info)
           = targetFps.
Proof.
  intros t fps. unfold uploadTargetFps.
  destruct (existsb _ validFps) eqn:Ex; [|discriminate].
  intros [= <-]. apply existsb_exists in Ex. destruct Ex as [x [Hin Hx]].
  apply Z.eqb_eq in Hx. rewrite Hx.
  split; [exact Hin|]. split.
  - intros Ht. rewrite <- Hx. unfold JS.orZ. destruct t; [rewrite Ht|];
      reflexivity.
  - clear Hx. simpl in Hin.
    destruct Hin as [<-|[<-|[<-|[<-|[]]]]]; intros info;
      repeat split; reflexivity.
Qed.

Lemma uploadTargetFps_accepted_witness :
  In 25 validFps
  /\ forall info : VideoInfo.t,
      effective_fps (uploadOptions 25) info = inject_Z 25.
Proof.
  destruct (uploadTargetFps_accepted (Some 25) 25 eq_refl) as [H1 [_ H2]].
  split; [exact H1 | intros info; apply (H2 info)].
Defined.

(** X21: the timestamp [/preview] passes to [generateThumbnail] is never
    negative; for a video of at least one millisecond it is at most
    duration - 0.001; a requested time already in that interval is passed
    unchanged; and for a shorter (or empty) video it is 0. *)
Theorem safeTimestamp_bounds :
  forall timeValue duration : Q,
    (0 <= safeTimestamp timeValue duration)%Q
    /\ ((1 # 1000 <= duration)%Q ->
        (safeTimestamp timeValue duration <= duration - (1 # 1000))%Q)
    /\ ((0 <= timeValue)%Q -> (timeValue <= duration - (1 # 1000))%Q ->
        safeTimestamp timeValue duration == timeValue)
    /\ ((duration < 1 # 1000)%Q -> safeTimestamp timeValue duration == 0).
Proof.
  intros t d. unfold safeTimestamp, JS.Math_max, JS.Math_min.
  destruct (Q.min_spec t (d - (1 # 1000))) as [[Hm Em]|[Hm Em]];
    destruct (Q.max_spec 0 (Qmin t (d - (1 # 1000)))) as [[HM EM]|[HM EM]];
    rewrite EM; rewrite ?Em in *; repeat split; intros; lra.
Qed.

Lemma safeTimestamp_bounds_witness :
  (safeTimestamp 12 10 <= 10 - (1 # 1000))%Q
  /\ safeTimestamp 3 10 == 3.
Proof.
  destruct (safeTimestamp_bounds 12 10) as [_ [H1 _]].
  destruct (safeTimestamp_bounds 3 10) as [_ [_ [H2 _]]].
  split; [apply H1; discriminate | apply H2; discriminate].
Defined.
